(** * Fax: the protobuf FFI bridge and the GC-aware allocation runtime

    A shallow embedding of
    - [faxc/Compiler/Proto/ffi.cpp] (with [ffi.h]): the C-linkage bridge that
      keeps one [ProtoContextData] per opaque [ProtoContext] handle, and
    - [faxc/crates/faxc-runtime/src/runtime.c]: the allocation runtime with its
      process-wide [gc_initialized] flag,
    followed by the properties of the bridge and of the runtime.

    Conventions of the embedding.
    - A C pointer that the code tests against null is an [option]: [None] is
      the null pointer, [Some x] a pointer to [x].
    - The contexts allocated with [new] live in a store indexed by addresses;
      a bridge function is a computation over that store which may be
      undefined (dereferencing a handle that is not live).
    - An out-parameter is passed as the pointer to a caller cell together with
      the cell's current content, and the function returns the content of the
      cell after the call.
    - [int] and [size_t] values are integers of [Z]; the code does no
      arithmetic on them. *)

From Stdlib Require Import ZArith.
From stdpp Require Import base option gmap strings list.

Local Open Scope string_scope.

(** ** Pointers *)

Definition ptr (A : Type) : Type := option A.

Definition nullptr {A : Type} : ptr A := None.

(** [!p] of the C code. *)
Definition is_null {A : Type} (p : ptr A) : bool :=
  match p with
  | None => true
  | Some _ => false
  end.

(** [if (p) *p = v;] seen from the caller: the content of the cell behind [p]
    after the guarded assignment. *)
Definition write_out {A : Type} (p : ptr A) (v : A) : ptr A :=
  match p with
  | None => None
  | Some _ => Some v
  end.

(** ** The serialization bridge, [ffi.cpp] *)

Module Proto.

(** Modelled from the spec: [fax::compiler::TokenStream] is only forward
    declared in [ffi.cpp]; the spec describes the decoded token stream as an
    ordered sequence of Token records with an integer kind tag, a text, a
    line and a column. *)
Record Token : Type := {
  kind : Z;
  text : string;
  line : Z;
  column : Z
}.

Definition TokenStream : Type := list Token.

(** Modelled from the spec: [fax::compiler::Module] is only forward declared
    in [ffi.cpp]; the spec describes it as an opaque structured AST value
    whose interchange format with the host is textual. *)
Inductive Module_ : Type :=
| ModuleAst (json : string).

(** [struct ProtoContextData]; a [std::unique_ptr] is null or owns a value. *)
Record ProtoContextData : Type := {
  error : string;
  buffer : list Byte.byte;
  temp_string : string;
  token_stream : ptr TokenStream;
  module : ptr Module_
}.

Definition set_error (e : string) (d : ProtoContextData) : ProtoContextData :=
  {| error := e; buffer := buffer d; temp_string := temp_string d;
     token_stream := token_stream d; module := module d |}.

Definition set_buffer (b : list Byte.byte) (d : ProtoContextData) : ProtoContextData :=
  {| error := error d; buffer := b; temp_string := temp_string d;
     token_stream := token_stream d; module := module d |}.

Definition set_temp_string (t : string) (d : ProtoContextData) : ProtoContextData :=
  {| error := error d; buffer := buffer d; temp_string := t;
     token_stream := token_stream d; module := module d |}.

(** [ProtoContextData()]: every member default-constructed. *)
Definition ProtoContextData_new : ProtoContextData :=
  {| error := ""; buffer := []; temp_string := "";
     token_stream := nullptr; module := nullptr |}.

(** [std::string::empty]. *)
Definition string_empty (s : string) : bool :=
  match s with
  | EmptyString => true
  | String _ _ => false
  end.

(** Addresses of heap-allocated contexts, and the opaque handle
    [typedef void* ProtoContext]. *)
Definition loc : Type := nat.

Definition ProtoContext : Type := ptr loc.

(** The live contexts. *)
Abbreviation heap := (gmap loc ProtoContextData).

(** A bridge call: a state transformer on the store of contexts; [None] is
    undefined behaviour, reached by going through a handle that is not
    live. *)
Definition ffi (A : Type) : Type := heap -> option (A * heap).

Definition ret {A : Type} (a : A) : ffi A :=
  fun h => Some (a, h).

Definition bind {A B : Type} (m : ffi A) (k : A -> ffi B) : ffi B :=
  fun h =>
    match m h with
    | Some (a, h') => k a h'
    | None => None
    end.

(** Undefined behaviour. *)
Definition undefined {A : Type} : ffi A :=
  fun _ => None.

Notation "x <- m ;; k" := (bind m (fun x => k))
  (at level 100, m at next level, k at level 200, right associativity).
Notation "m ;; k" := (bind m (fun _ => k))
  (at level 100, k at level 200, right associativity).

(** [data->field] as an rvalue. *)
Definition read {A : Type} (ctx : ProtoContext) (field : ProtoContextData -> A) : ffi A :=
  fun h =>
    match ctx with
    | None => None
    | Some l =>
        match h !! l with
        | Some d => Some (field d, h)
        | None => None
        end
    end.

(** An assignment through [data->]. *)
Definition modify (ctx : ProtoContext) (f : ProtoContextData -> ProtoContextData) : ffi unit :=
  fun h =>
    match ctx with
    | None => None
    | Some l =>
        match h !! l with
        | Some d => Some (tt, <[l := f d]> h)
        | None => None
        end
    end.

(** [new ProtoContextData()]: a fresh address; allocation failure throws and
    is not a return value. *)
Definition fax_proto_context_new : ffi ProtoContext :=
  fun h =>
    let l := fresh (dom h) in
    Some (Some l, <[l := ProtoContextData_new]> h).

(** [delete static_cast<ProtoContextData*>(ctx)]: nothing on null. *)
Definition fax_proto_context_free (ctx : ProtoContext) : ffi unit :=
  fun h =>
    match ctx with
    | None => Some (tt, h)
    | Some l =>
        match h !! l with
        | Some _ => Some (tt, delete l h)
        | None => None
        end
    end.

Definition fax_proto_get_error (ctx : ProtoContext) : ffi (ptr string) :=
  if is_null ctx then ret nullptr
  else
    e <- read ctx error;;
    if string_empty e then ret nullptr
    else
      modify ctx (fun d => set_temp_string (error d) d);;
      t <- read ctx temp_string;;
      ret (Some t).

Definition msg_serialize_tokens : string :=
  "Token serialization not yet implemented with protobuf".

(** Returns the returned buffer pointer and the content of [*out_size]. *)
Definition fax_serialize_tokens (ctx : ProtoContext) (source : ptr string)
    (out_size : ptr Z) : ffi (ptr (list Byte.byte) * ptr Z) :=
  if is_null ctx || is_null source || is_null out_size then
    ret (nullptr, out_size)
  else
    modify ctx (set_error msg_serialize_tokens);;
    modify ctx (set_buffer []);;
    ret (nullptr, Some 0%Z).

Definition fax_bytes_free (bytes : ptr (list Byte.byte)) : ffi unit :=
  ret tt.

Definition msg_deserialize_tokens : string :=
  "Token deserialization not yet implemented".

Definition fax_deserialize_tokens (ctx : ProtoContext) (data : ptr (list Byte.byte))
    (size : Z) : ffi Z :=
  if is_null ctx || is_null data || (size =? 0)%Z then
    ret (-1)%Z
  else
    modify ctx (set_error msg_deserialize_tokens);;
    ret (-1)%Z.

Definition fax_get_token_count (ctx : ProtoContext) : ffi Z :=
  if is_null ctx then ret 0%Z
  else
    ts <- read ctx token_stream;;
    if is_null ts then ret 0%Z
    else ret 0%Z.

(** The contents of [*type], [*text], [*line] and [*col] after a call. *)
Record TokenInfo : Type := {
  out_type : ptr Z;
  out_text : ptr (ptr string);
  out_line : ptr Z;
  out_col : ptr Z
}.

Definition fax_get_token_info (ctx : ProtoContext) (index : Z) (type : ptr Z)
    (text : ptr (ptr string)) (line col : ptr Z) : ffi TokenInfo :=
  ret {| out_type := write_out type 0%Z;
         out_text := write_out text (Some "");
         out_line := write_out line 0%Z;
         out_col := write_out col 0%Z |}.

Definition msg_serialize_module : string :=
  "Module serialization not yet implemented".

Definition fax_serialize_module (ctx : ProtoContext) (ast_json : ptr string)
    (out_size : ptr Z) : ffi (ptr (list Byte.byte) * ptr Z) :=
  if is_null ctx || is_null ast_json || is_null out_size then
    ret (nullptr, out_size)
  else
    modify ctx (set_error msg_serialize_module);;
    ret (nullptr, Some 0%Z).

Definition msg_deserialize_module : string :=
  "Module deserialization not yet implemented".

(** [*out_json] is never assigned. *)
Definition fax_deserialize_module (ctx : ProtoContext) (data : ptr (list Byte.byte))
    (size : Z) (out_json : ptr (ptr string)) : ffi Z :=
  if is_null ctx || is_null data || (size =? 0)%Z || is_null out_json then
    ret (-1)%Z
  else
    modify ctx (set_error msg_deserialize_module);;
    ret (-1)%Z.

(** [delete[] str]: nothing on null. For a non-null [str] the array must come
    from [new[]] and not be freed yet. The bridge runs no [new[]]
    ([fax_deserialize_module] never assigns [*out_json]) and the store holds
    the contexts only, so no non-null [str] is an array known to be live
    here: the call is undefined. An array that the caller allocated with
    [new[]] on its own is outside the store. *)
Definition fax_string_free (str : ptr string) : ffi unit :=
  if is_null str then ret tt else undefined.

Definition fax_proto_version : string := "Fax Protobuf FFI v0.0.3".

End Proto.

(** ** Clients of the bridge

    A client holds handles and calls the functions of [ffi.h] one after the
    other; [call] lists those functions with their arguments, [exec] runs one
    call and drops its results, [exec_all] runs a sequence. *)

Module Client.
Import Proto.

Inductive call : Type :=
| context_new
| context_free (ctx : ProtoContext)
| get_error (ctx : ProtoContext)
| serialize_tokens (ctx : ProtoContext) (source : ptr string) (out_size : ptr Z)
| bytes_free (bytes : ptr (list Byte.byte))
| deserialize_tokens (ctx : ProtoContext) (data : ptr (list Byte.byte)) (size : Z)
| get_token_count (ctx : ProtoContext)
| get_token_info (ctx : ProtoContext) (index : Z) (type : ptr Z)
    (text : ptr (ptr string)) (line col : ptr Z)
| serialize_module (ctx : ProtoContext) (ast_json : ptr string) (out_size : ptr Z)
| deserialize_module (ctx : ProtoContext) (data : ptr (list Byte.byte)) (size : Z)
    (out_json : ptr (ptr string))
| string_free (str : ptr string)
| proto_version.

Definition exec (c : call) : ffi unit :=
  match c with
  | context_new => fax_proto_context_new;; ret tt
  | context_free ctx => fax_proto_context_free ctx
  | get_error ctx => fax_proto_get_error ctx;; ret tt
  | serialize_tokens ctx source out_size =>
      fax_serialize_tokens ctx source out_size;; ret tt
  | bytes_free bytes => fax_bytes_free bytes
  | deserialize_tokens ctx data size =>
      fax_deserialize_tokens ctx data size;; ret tt
  | get_token_count ctx => fax_get_token_count ctx;; ret tt
  | get_token_info ctx index type text line col =>
      fax_get_token_info ctx index type text line col;; ret tt
  | serialize_module ctx ast_json out_size =>
      fax_serialize_module ctx ast_json out_size;; ret tt
  | deserialize_module ctx data size out_json =>
      fax_deserialize_module ctx data size out_json;; ret tt
  | string_free str => fax_string_free str
  | proto_version => ret tt
  end.

Fixpoint exec_all (cs : list call) : ffi unit :=
  match cs with
  | [] => ret tt
  | c :: cs' => exec c;; exec_all cs'
  end.

(** The handle points to a context that has been created and not yet
    destroyed. *)
Definition live (h : heap) (ctx : ProtoContext) : Prop :=
  match ctx with
  | Some l => is_Some (h !! l)
  | None => False
  end.

(** The four messages the bridge can record. *)
Definition messages : list string :=
  [msg_serialize_tokens; msg_deserialize_tokens;
   msg_serialize_module; msg_deserialize_module].

(** [needle] occurs in [s]. *)
Definition mentions (needle s : string) : bool :=
  match String.index 0 needle s with
  | Some _ => true
  | None => false
  end.

(** What a call may do to a context it does not destroy: the decoded values
    stay, and the error string stays or becomes one of the four messages. *)
Definition evolves (d d' : ProtoContextData) : Prop :=
  token_stream d' = token_stream d /\
  module d' = module d /\
  (error d' = error d \/ error d' ∈ messages).

(** A context whose [token_stream] member owns the stream [ts], as a
    successful decode would leave it. *)
Definition holding (ts : TokenStream) : ProtoContextData :=
  {| error := ""; buffer := []; temp_string := "";
     token_stream := Some ts; module := nullptr |}.

(** The computation destroys and creates no context, and the contexts it
    touches evolve. *)
Definition keeps {A : Type} (m : ffi A) : Prop :=
  forall h a h1, m h = Some (a, h1) ->
    forall l, option_Forall2 evolves (h !! l) (h1 !! l).

(** No context of the store holds a decoded token stream. *)
Definition no_stream (h : heap) : Prop :=
  forall l d, h !! l = Some d -> token_stream d = nullptr.

(** The call destroys the context at [l]. *)
Definition frees (l : loc) (c : call) : bool :=
  match c with
  | context_free (Some l') => bool_decide (l' = l)
  | _ => false
  end.

(** What one call does at the address [l]: the context there evolves, is
    destroyed by a [context_free] of that address, is created by
    [context_new], or the address stays unused. *)
Inductive transition (c : call) (l : loc) :
    option ProtoContextData -> option ProtoContextData -> Prop :=
| transition_kept d d1 :
    evolves d d1 -> transition c l (Some d) (Some d1)
| transition_freed d :
    frees l c = true -> transition c l (Some d) None
| transition_created :
    c = context_new -> transition c l None (Some ProtoContextData_new)
| transition_unused :
    transition c l None None.

(** The handle a call is given; null for the calls that take none. *)
Definition target (c : call) : ProtoContext :=
  match c with
  | context_free ctx
  | get_error ctx
  | serialize_tokens ctx _ _
  | deserialize_tokens ctx _ _
  | get_token_count ctx
  | get_token_info ctx _ _ _ _ _
  | serialize_module ctx _ _
  | deserialize_module ctx _ _ _ => ctx
  | context_new | bytes_free _ | string_free _ | proto_version => nullptr
  end.



(** The computation goes through no handle but [ctx]: the contexts at the
    other addresses are as they were. *)
Definition touches_only {A : Type} (ctx : ProtoContext) (m : ffi A) : Prop :=
  forall h a h1, m h = Some (a, h1) ->
    forall l, ctx <> Some l -> h1 !! l = h !! l.

(** On a live [ctx] the computation is defined and leaves [ctx] live. *)
Definition safe_on {A : Type} (ctx : ProtoContext) (m : ffi A) : Prop :=
  forall h, live h ctx -> exists a h1, m h = Some (a, h1) /\ live h1 ctx.

(** Every context of the store satisfies [P]. *)
Definition everywhere (P : ProtoContextData -> Prop) (h : heap) : Prop :=
  forall l d, h !! l = Some d -> P d.

(** The computation keeps [P] true of every context. *)
Definition maintains {A : Type} (P : ProtoContextData -> Prop) (m : ffi A) : Prop :=
  forall h a h1, m h = Some (a, h1) -> everywhere P h -> everywhere P h1.

(** A string member that is empty or holds one of the four messages. *)
Definition blank_or_message (s : string) : Prop :=
  s = "" \/ s ∈ messages.

(** The state of a context that only the code of the bridge has written. *)
Definition pristine (d : ProtoContextData) : Prop :=
  buffer d = [] /\
  token_stream d = nullptr /\
  module d = nullptr /\
  blank_or_message (error d) /\
  blank_or_message (temp_string d).

(** Two states of a context that differ at most in [temp_string]. *)
Definition same_but_temp_string (d d1 : ProtoContextData) : Prop :=
  error d1 = error d /\
  buffer d1 = buffer d /\
  token_stream d1 = token_stream d /\
  module d1 = module d.

End Client.

(** ** The allocation runtime, [runtime.c] *)

Module Runtime.

(** A [void*] into the C heap. *)
Definition address : Type := Z.

Definition newline : string := String (Ascii.ascii_of_nat 10) "".

Definition msg_out_of_memory : string :=
  "GC allocation failed: out of memory" +:+ newline.

Section Libc.

(** The allocator of the C library is not part of the repository: its state
    and the answers of [malloc] and [calloc] are parameters. *)
Variable libc : Type.
Variable malloc : Z -> libc -> ptr address * libc.
Variable calloc : Z -> Z -> libc -> ptr address * libc.

(** The process: [static int gc_initialized], the C heap, and what was
    printed on [stderr]. *)
Record world : Type := {
  gc_initialized : Z;
  c_heap : libc;
  stderr : list string
}.

Definition set_gc_initialized (v : Z) (w : world) : world :=
  {| gc_initialized := v; c_heap := c_heap w; stderr := stderr w |}.

Definition set_c_heap (m : libc) (w : world) : world :=
  {| gc_initialized := gc_initialized w; c_heap := m; stderr := stderr w |}.

Definition fprintf_stderr (s : string) (w : world) : world :=
  {| gc_initialized := gc_initialized w; c_heap := c_heap w;
     stderr := stderr w ++ [s] |}.

(** [static int gc_initialized = 0;] at program start. *)
Definition start (m : libc) : world :=
  {| gc_initialized := 0; c_heap := m; stderr := [] |}.

Definition fax_gc_init (w : world) : Z * world :=
  if negb (gc_initialized w =? 0)%Z then (1%Z, w)
  else (1%Z, set_gc_initialized 1 w).

Definition fax_gc_alloc (size : Z) (w : world) : ptr address * world :=
  let w1 := if (gc_initialized w =? 0)%Z then snd (fax_gc_init w) else w in
  let (p, m) := malloc size (c_heap w1) in
  let w2 := set_c_heap m w1 in
  if is_null p then (nullptr, fprintf_stderr msg_out_of_memory w2)
  else (p, w2).

Definition fax_gc_alloc_zeroed (size : Z) (w : world) : ptr address * world :=
  let w1 := if (gc_initialized w =? 0)%Z then snd (fax_gc_init w) else w in
  let (p, m) := calloc 1 size (c_heap w1) in
  let w2 := set_c_heap m w1 in
  if is_null p then (nullptr, fprintf_stderr msg_out_of_memory w2)
  else (p, w2).

Definition fax_gc_register_root (p : ptr address) (w : world) : Z * world :=
  (1%Z, w).

Definition fax_gc_unregister_root (p : ptr address) (w : world) : Z * world :=
  (1%Z, w).

Definition fax_gc_collect (w : world) : world := w.

Definition fax_gc_collect_young (w : world) : world := w.

Definition fax_gc_shutdown (w : world) : world :=
  set_gc_initialized 0 w.

(** [n] calls of [fax_gc_init] in a row: the values returned, in order, and
    the final state. *)
Fixpoint init_times (n : nat) (w : world) : list Z * world :=
  match n with
  | O => ([], w)
  | S n' =>
      let (r, w1) := fax_gc_init w in
      let (rs, w2) := init_times n' w1 in
      (r :: rs, w2)
  end.

End Libc.

Arguments gc_initialized {libc} w.
Arguments c_heap {libc} w.
Arguments stderr {libc} w.
Arguments set_gc_initialized {libc} v w.
Arguments set_c_heap {libc} m w.
Arguments fprintf_stderr {libc} s w.
Arguments start {libc} m.
Arguments fax_gc_init {libc} w.
Arguments fax_gc_alloc {libc} malloc size w.
Arguments fax_gc_alloc_zeroed {libc} calloc size w.
Arguments fax_gc_register_root {libc} p w.
Arguments fax_gc_unregister_root {libc} p w.
Arguments fax_gc_collect {libc} w.
Arguments fax_gc_collect_young {libc} w.
Arguments fax_gc_shutdown {libc} w.
Arguments init_times {libc} n w.

(** An allocator with no memory left: every request is answered with null. *)
Definition exhausted : Z -> unit -> ptr address * unit :=
  fun _ m => (nullptr, m).

(** An allocator that hands out consecutive addresses from a counter. *)
Definition bump : Z -> Z -> ptr address * Z :=
  fun size next => (Some next, (next + Z.max size 1)%Z).

(** A program that uses the runtime calls its functions one after the
    other; [op] lists them with their arguments, [run_op] runs one call and
    [run_ops] a sequence, returning what the calls returned. *)
Inductive op : Type :=
| gc_init
| gc_alloc (size : Z)
| gc_alloc_zeroed (size : Z)
| gc_register_root (p : ptr address)
| gc_unregister_root (p : ptr address)
| gc_collect
| gc_collect_young
| gc_shutdown.

Inductive result : Type :=
| status (r : Z)
| pointer (p : ptr address)
| void.

Definition run_op {libc : Type} (malloc : Z -> libc -> ptr address * libc)
    (calloc : Z -> Z -> libc -> ptr address * libc) (o : op) (w : world libc)
    : result * world libc :=
  match o with
  | gc_init => let (r, w1) := fax_gc_init w in (status r, w1)
  | gc_alloc size => let (p, w1) := fax_gc_alloc malloc size w in (pointer p, w1)
  | gc_alloc_zeroed size =>
      let (p, w1) := fax_gc_alloc_zeroed calloc size w in (pointer p, w1)
  | gc_register_root p => let (r, w1) := fax_gc_register_root p w in (status r, w1)
  | gc_unregister_root p =>
      let (r, w1) := fax_gc_unregister_root p w in (status r, w1)
  | gc_collect => (void, fax_gc_collect w)
  | gc_collect_young => (void, fax_gc_collect_young w)
  | gc_shutdown => (void, fax_gc_shutdown w)
  end.

Fixpoint run_ops {libc : Type} (malloc : Z -> libc -> ptr address * libc)
    (calloc : Z -> Z -> libc -> ptr address * libc) (os : list op)
    (w : world libc) : list result * world libc :=
  match os with
  | [] => ([], w)
  | o :: os' =>
      let (r, w1) := run_op malloc calloc o w in
      let (rs, w2) := run_ops malloc calloc os' w1 in
      (r :: rs, w2)
  end.

Definition is_shutdown (o : op) : bool :=
  match o with
  | gc_shutdown => true
  | _ => false
  end.

Definition is_allocation (o : op) : bool :=
  match o with
  | gc_alloc _ | gc_alloc_zeroed _ => true
  | _ => false
  end.

Definition is_pointer (r : result) : bool :=
  match r with
  | pointer _ => true
  | _ => false
  end.

(** An allocation that returned null. *)
Definition failed (r : result) : bool :=
  match r with
  | pointer None => true
  | _ => false
  end.

(** How many of the calls were allocations that returned null. *)
Fixpoint failures (rs : list result) : nat :=
  match rs with
  | [] => 0
  | r :: rs' => (if failed r then 1 else 0) + failures rs'
  end.

(** Two states of the process with the same C heap and the same output. *)
Definition same_memory {libc : Type} (w w' : world libc) : Prop :=
  c_heap w = c_heap w' /\ stderr w = stderr w'.

(** A [calloc] that answers as [bump] does. *)
Definition bump_zeroed : Z -> Z -> Z -> ptr address * Z :=
  fun count size next => (Some next, (next + Z.max (count * size) 1)%Z).

(** An allocator with room for [left] more bytes. *)
Definition bounded : Z -> Z * Z -> ptr address * (Z * Z) :=
  fun size m =>
    let (next, left) := m in
    if (size <=? left)%Z then (Some next, ((next + size)%Z, (left - size)%Z))
    else (nullptr, m).

Definition bounded_zeroed : Z -> Z -> Z * Z -> ptr address * (Z * Z) :=
  fun count size m => bounded (count * size) m.

End Runtime.

(** * Properties of the bridge *)

Import Proto Client.

(** ** The store operations *)

Lemma bind_Some {A B : Type} (m : ffi A) (k : A -> ffi B) (h h1 : heap) (a : A) :
  m h = Some (a, h1) -> bind m k h = k a h1.
Proof. intros Hm. unfold bind. rewrite Hm. reflexivity. Qed.

Lemma bind_inv {A B : Type} (m : ffi A) (k : A -> ffi B) (h h2 : heap) (b : B) :
  bind m k h = Some (b, h2) ->
  exists a h1, m h = Some (a, h1) /\ k a h1 = Some (b, h2).
Proof.
  unfold bind. destruct (m h) as [[a h1]|] eqn:Hm; [|discriminate].
  intros Hk. exists a, h1. split; [reflexivity | exact Hk].
Qed.

Lemma read_Some {A : Type} (g : ProtoContextData -> A) (h : heap) (l : loc)
    (d : ProtoContextData) :
  h !! l = Some d -> read (Some l) g h = Some (g d, h).
Proof. intros Hl. unfold read. rewrite Hl. reflexivity. Qed.

Lemma modify_Some (f : ProtoContextData -> ProtoContextData) (h : heap) (l : loc)
    (d : ProtoContextData) :
  h !! l = Some d -> modify (Some l) f h = Some (tt, <[l := f d]> h).
Proof. intros Hl. unfold modify. rewrite Hl. reflexivity. Qed.

Lemma string_empty_true (s : string) : string_empty s = true <-> s = "".
Proof. destruct s; simpl; split; intros; congruence. Qed.

Lemma string_empty_false (s : string) : string_empty s = false <-> s <> "".
Proof. destruct s; simpl; split; intros; congruence. Qed.

(** ** The error accessor *)

Lemma get_error_absent (h : heap) (l : loc) (d : ProtoContextData) :
  h !! l = Some d -> error d = "" ->
  fax_proto_get_error (Some l) h = Some (nullptr, h).
Proof.
  intros Hl He. unfold fax_proto_get_error. simpl.
  rewrite (bind_Some _ _ _ _ _ (read_Some error h l d Hl)).
  rewrite He. reflexivity.
Qed.

Lemma get_error_recorded (h : heap) (l : loc) (d : ProtoContextData) :
  h !! l = Some d -> error d <> "" ->
  fax_proto_get_error (Some l) h =
    Some (Some (error d), <[l := set_temp_string (error d) d]> h).
Proof.
  intros Hl He. unfold fax_proto_get_error. simpl.
  rewrite (bind_Some _ _ _ _ _ (read_Some error h l d Hl)).
  apply string_empty_false in He. rewrite He.
  rewrite (bind_Some _ _ _ _ _ (modify_Some _ h l d Hl)).
  erewrite bind_Some by (apply read_Some, lookup_insert_eq).
  reflexivity.
Qed.

Lemma serialize_tokens_run (h : heap) (l : loc) (d : ProtoContextData)
    (source : string) (n : Z) :
  h !! l = Some d ->
  fax_serialize_tokens (Some l) (Some source) (Some n) h =
    Some ((nullptr, Some 0%Z),
          <[l := set_buffer [] (set_error msg_serialize_tokens d)]> h).
Proof.
  intros Hl. unfold fax_serialize_tokens. simpl.
  rewrite (bind_Some _ _ _ _ _ (modify_Some _ h l d Hl)).
  erewrite bind_Some by (apply modify_Some, lookup_insert_eq).
  unfold ret. rewrite insert_insert_eq. reflexivity.
Qed.

(** ** Creation *)

(** C8. [fax_proto_context_new] never fails and returns a handle to a context
    at an address that was not in use, in the initial state: the error string
    and the encoded buffer are empty and there is neither a decoded token
    stream nor a decoded module; the other contexts are as they were, and
    [fax_proto_get_error] on the new handle returns absent and changes
    nothing. *)
Theorem context_new_initial_state (h : heap) :
  exists (l : loc) (h1 : heap) (d : ProtoContextData),
    fax_proto_context_new h = Some (Some l, h1) /\
    h !! l = None /\
    h1 !! l = Some d /\
    error d = "" /\
    buffer d = [] /\
    token_stream d = nullptr /\
    module d = nullptr /\
    (forall l', l' <> l -> h1 !! l' = h !! l') /\
    fax_proto_get_error (Some l) h1 = Some (nullptr, h1).
Proof.
  exists (fresh (dom h)), (<[fresh (dom h) := ProtoContextData_new]> h),
    ProtoContextData_new.
  assert (Hnew : (<[fresh (dom h) := ProtoContextData_new]> h) !! fresh (dom h)
                 = Some ProtoContextData_new) by apply lookup_insert_eq.
  repeat split; try reflexivity; try exact Hnew.
  - apply not_elem_of_dom. apply is_fresh.
  - intros l' Hne. apply lookup_insert_ne. congruence.
  - apply (get_error_absent _ _ _ Hnew). reflexivity.
Qed.

(** ** Encoding tokens while the codec is missing *)

(** C1. On a live context (one that [fax_proto_context_new] returned and that
    was not destroyed since), with a non-null source text and a non-null
    out-size pointer, [fax_serialize_tokens] returns the null buffer and
    stores 0 in [*out_size]; [fax_proto_get_error] then returns a message,
    the message is not empty and says "not yet implemented". *)
Theorem serialize_tokens_not_implemented (h : heap) (l : loc)
    (d : ProtoContextData) (source : string) (n : Z) :
  h !! l = Some d ->
  exists (h1 h2 : heap) (msg : string),
    fax_serialize_tokens (Some l) (Some source) (Some n) h
      = Some ((nullptr, Some 0%Z), h1) /\
    fax_proto_get_error (Some l) h1 = Some (Some msg, h2) /\
    msg = msg_serialize_tokens /\
    msg <> "" /\
    mentions "not yet implemented" msg = true.
Proof.
  intros Hl.
  set (d1 := set_buffer [] (set_error msg_serialize_tokens d)).
  exists (<[l := d1]> h), (<[l := set_temp_string (error d1) d1]> (<[l := d1]> h)),
    msg_serialize_tokens.
  split; [apply (serialize_tokens_run _ _ _ _ _ Hl)|].
  split; [|split; [reflexivity|split; [discriminate|reflexivity]]].
  apply (get_error_recorded (<[l := d1]> h) l d1).
  - apply lookup_insert_eq.
  - discriminate.
Qed.

(** The context comes from [fax_proto_context_new] on the empty store. *)
Lemma serialize_tokens_not_implemented_witness :
  fax_proto_context_new ∅ = Some (Some 0%nat, {[0%nat := ProtoContextData_new]}) /\
  exists (h1 h2 : heap) (msg : string),
    fax_serialize_tokens (Some 0%nat) (Some "let x = 1") (Some 42%Z)
        {[0%nat := ProtoContextData_new]}
      = Some ((nullptr, Some 0%Z), h1) /\
    fax_proto_get_error (Some 0%nat) h1 = Some (Some msg, h2) /\
    msg = msg_serialize_tokens /\
    msg <> "" /\
    mentions "not yet implemented" msg = true.
Proof.
  split; [reflexivity|].
  apply (serialize_tokens_not_implemented
           {[0%nat := ProtoContextData_new]} 0%nat ProtoContextData_new).
  reflexivity.
Defined.

(** ** Invalid arguments *)

(** C2, as stated, fails: on a context just created, [fax_serialize_tokens]
    with a null source returns null, leaves [*out_size] as it was, and
    [fax_proto_get_error] still returns absent. *)
Lemma invalid_argument_not_recorded :
  (ctx <- fax_proto_context_new;;
   r <- fax_serialize_tokens ctx nullptr (Some 7%Z);;
   e <- fax_proto_get_error ctx;;
   ret (r, e)) ∅
  = Some ((nullptr, Some 7%Z, nullptr), {[0%nat := ProtoContextData_new]}).
Proof. reflexivity. Qed.

(** C2, amended. On a live context, each of the four operations called with a
    null required pointer or a zero length returns its failure value (null,
    or -1) and changes nothing: no out-parameter is written, no context is
    modified and no error is recorded, so that [fax_proto_get_error] answers
    as it did before the call, absent when no error was recorded. *)
Theorem invalid_argument_changes_nothing (h : heap) (ctx : ProtoContext) :
  live h ctx ->
  (forall source out_size,
      source = nullptr \/ out_size = nullptr ->
      fax_serialize_tokens ctx source out_size h
        = Some ((nullptr, out_size), h)) /\
  (forall data size,
      data = nullptr \/ size = 0%Z ->
      fax_deserialize_tokens ctx data size h = Some ((-1)%Z, h)) /\
  (forall ast_json out_size,
      ast_json = nullptr \/ out_size = nullptr ->
      fax_serialize_module ctx ast_json out_size h
        = Some ((nullptr, out_size), h)) /\
  (forall data size out_json,
      data = nullptr \/ size = 0%Z \/ out_json = nullptr ->
      fax_deserialize_module ctx data size out_json h = Some ((-1)%Z, h)) /\
  (forall l d,
      ctx = Some l -> h !! l = Some d -> error d = "" ->
      fax_proto_get_error ctx h = Some (nullptr, h)).
Proof.
  intros Hlive. destruct ctx as [l|]; [|destruct Hlive].
  repeat split.
  - intros source out_size [-> | ->]; [reflexivity|].
    unfold fax_serialize_tokens. destruct source; reflexivity.
  - intros data size [-> | ->]; [reflexivity|].
    unfold fax_deserialize_tokens. destruct data; reflexivity.
  - intros ast_json out_size [-> | ->]; [reflexivity|].
    unfold fax_serialize_module. destruct ast_json; reflexivity.
  - intros data size out_json [-> | [-> | ->]]; [reflexivity| |].
    + unfold fax_deserialize_module. destruct data; reflexivity.
    + unfold fax_deserialize_module. destruct data; simpl; [|reflexivity].
      destruct (size =? 0)%Z; reflexivity.
  - intros l' d Heq Hl He. injection Heq as <-.
    apply (get_error_absent _ _ _ Hl He).
Qed.

Lemma invalid_argument_changes_nothing_witness :
  let h : heap := {[0%nat := ProtoContextData_new]} in
  live h (Some 0%nat) /\
  fax_serialize_tokens (Some 0%nat) nullptr (Some 7%Z) h
    = Some ((nullptr, Some 7%Z), h) /\
  fax_deserialize_tokens (Some 0%nat) (Some []) 0 h = Some ((-1)%Z, h) /\
  fax_serialize_module (Some 0%nat) (Some "{}") nullptr h
    = Some ((nullptr, nullptr), h) /\
  fax_deserialize_module (Some 0%nat) nullptr 4 (Some nullptr) h
    = Some ((-1)%Z, h) /\
  fax_proto_get_error (Some 0%nat) h = Some (nullptr, h).
Proof.
  intros h.
  assert (Hlive : live h (Some 0%nat)) by (exists ProtoContextData_new; reflexivity).
  destruct (invalid_argument_changes_nothing h (Some 0%nat) Hlive)
    as (Hst & Hdt & Hsm & Hdm & Herr).
  split; [exact Hlive|].
  split; [apply Hst; left; reflexivity|].
  split; [apply Hdt; right; reflexivity|].
  split; [apply Hsm; right; reflexivity|].
  split; [apply Hdm; left; reflexivity|].
  apply (Herr 0%nat ProtoContextData_new); reflexivity.
Defined.

(** ** Token accessors *)

Lemma token_info_run (h : heap) (ctx : ProtoContext) (index : Z) (type : ptr Z)
    (text : ptr (ptr string)) (line col : ptr Z) :
  fax_get_token_info ctx index type text line col h =
    Some ({| out_type := write_out type 0%Z;
             out_text := write_out text (Some "");
             out_line := write_out line 0%Z;
             out_col := write_out col 0%Z |}, h).
Proof. reflexivity. Qed.

Lemma write_out_Some {A : Type} (p : ptr A) (v w : A) :
  p = Some w -> write_out p v = Some v.
Proof. intros ->. reflexivity. Qed.

(** C3. For every handle and every index [i] at or beyond the token count of
    that handle, [fax_get_token_info] returns normally, touches no context,
    and stores the empty-token sentinel through each out-parameter that is
    not null: kind 0, the empty text, line 0, column 0. *)
Theorem token_info_sentinel (h : heap) (ctx : ProtoContext) (i n : Z)
    (type : ptr Z) (text : ptr (ptr string)) (line col : ptr Z) :
  fax_get_token_count ctx h = Some (n, h) ->
  (n <= i)%Z ->
  exists r : TokenInfo,
    fax_get_token_info ctx i type text line col h = Some (r, h) /\
    (forall v, type = Some v -> out_type r = Some 0%Z) /\
    (forall v, text = Some v -> out_text r = Some (Some "")) /\
    (forall v, line = Some v -> out_line r = Some 0%Z) /\
    (forall v, col = Some v -> out_col r = Some 0%Z).
Proof.
  intros _ _. eexists. split; [apply token_info_run|].
  simpl. repeat split; intros v Hv; apply (write_out_Some _ _ v Hv).
Qed.

Lemma token_info_sentinel_witness :
  let h : heap := {[0%nat := ProtoContextData_new]} in
  fax_get_token_count (Some 0%nat) h = Some (0%Z, h) /\
  (0 <= 5)%Z /\
  exists r : TokenInfo,
    fax_get_token_info (Some 0%nat) 5 (Some 9%Z) (Some nullptr) (Some 9%Z) (Some 9%Z) h
      = Some (r, h) /\
    (forall v, Some 9%Z = Some v -> out_type r = Some 0%Z) /\
    (forall v, Some (@nullptr string) = Some v -> out_text r = Some (Some "")) /\
    (forall v, Some 9%Z = Some v -> out_line r = Some 0%Z) /\
    (forall v, Some 9%Z = Some v -> out_col r = Some 0%Z).
Proof.
  intros h. split; [reflexivity|]. split; [lia|].
  apply (token_info_sentinel h (Some 0%nat) 5 0); [reflexivity | lia].
Defined.

(** ** Decoding tokens *)

Lemma deserialize_tokens_inv (h h1 : heap) (ctx : ProtoContext)
    (data : ptr (list Byte.byte)) (size r : Z) :
  fax_deserialize_tokens ctx data size h = Some (r, h1) ->
  r = (-1)%Z /\
  (h1 = h \/
   exists l d, ctx = Some l /\ h !! l = Some d /\
               h1 = <[l := set_error msg_deserialize_tokens d]> h).
Proof.
  unfold fax_deserialize_tokens.
  destruct (is_null ctx || is_null data || (size =? 0)%Z) eqn:Hguard.
  - intros [= <- <-]. split; [reflexivity | left; reflexivity].
  - destruct ctx as [l|]; [|discriminate].
    intros Hrun. apply bind_inv in Hrun as ([] & h2 & Hmod & Hret).
    injection Hret as <- <-. split; [reflexivity|]. right.
    unfold modify in Hmod. destruct (h !! l) as [d|] eqn:Hl; [|discriminate].
    injection Hmod as <-. exists l, d. repeat split. exact Hl.
Qed.

Lemma deserialize_tokens_live (h : heap) (ctx : ProtoContext)
    (data : ptr (list Byte.byte)) (size : Z) :
  live h ctx ->
  exists h1, fax_deserialize_tokens ctx data size h = Some ((-1)%Z, h1).
Proof.
  intros Hlive. destruct ctx as [l|]; [|destruct Hlive].
  destruct Hlive as [d Hl]. unfold fax_deserialize_tokens.
  destruct (is_null (Some l) || is_null data || (size =? 0)%Z).
  - eexists. reflexivity.
  - rewrite (bind_Some _ _ _ _ _ (modify_Some _ h l d Hl)).
    eexists. reflexivity.
Qed.

(** C7. With a null buffer or a zero length [fax_deserialize_tokens] returns
    -1, whatever the handle, and changes nothing. Whenever a call returns a
    negative status, every context holds the decoded token stream it held
    before the call. On a live context every call returns. *)
Theorem deserialize_tokens_failure (h : heap) (ctx : ProtoContext)
    (data : ptr (list Byte.byte)) (size : Z) :
  fax_deserialize_tokens ctx nullptr size h = Some ((-1)%Z, h) /\
  fax_deserialize_tokens ctx data 0 h = Some ((-1)%Z, h) /\
  (forall r h1,
      fax_deserialize_tokens ctx data size h = Some (r, h1) ->
      (r < 0)%Z ->
      forall l, token_stream <$> (h1 !! l) = token_stream <$> (h !! l)) /\
  (live h ctx ->
   exists h1, fax_deserialize_tokens ctx data size h = Some ((-1)%Z, h1)).
Proof.
  split; [|split; [|split]].
  - unfold fax_deserialize_tokens. destruct ctx; reflexivity.
  - unfold fax_deserialize_tokens. destruct ctx, data; reflexivity.
  - intros r h1 Hrun _ l.
    apply deserialize_tokens_inv in Hrun as [_ [-> | (l0 & d & _ & Hl0 & ->)]];
      [reflexivity|].
    destruct (decide (l0 = l)) as [-> | Hne].
    + rewrite lookup_insert_eq, Hl0. reflexivity.
    + rewrite lookup_insert_ne by exact Hne. reflexivity.
  - apply deserialize_tokens_live.
Qed.

Lemma deserialize_tokens_failure_witness :
  let tok := {| kind := 3; text := "fn"; line := 1; column := 1 |} in
  let h : heap := {[0%nat := holding [tok]]} in
  let bytes := [Byte.x0a; Byte.x02] in
  exists h1,
    fax_deserialize_tokens (Some 0%nat) (Some bytes) 2 h = Some ((-1)%Z, h1) /\
    (-1 < 0)%Z /\
    live h (Some 0%nat) /\
    token_stream <$> (h1 !! 0%nat) = Some (Some [tok]).
Proof.
  intros tok h bytes.
  destruct (deserialize_tokens_failure h (Some 0%nat) (Some bytes) 2)
    as (_ & _ & Hkeep & Hdef).
  assert (Hlive : live h (Some 0%nat)) by (exists (holding [tok]); reflexivity).
  destruct (Hdef Hlive) as [h1 Hrun].
  exists h1. split; [exact Hrun|]. split; [lia|]. split; [exact Hlive|].
  etransitivity; [apply (Hkeep _ _ Hrun); lia | reflexivity].
Defined.

(** ** The null handle *)

(** C9. With a null context handle every operation returns without going
    through the handle and without touching any context:
    [fax_proto_get_error] returns absent, the two encoders return null and
    leave [*out_size] alone, the two decoders return -1, [fax_get_token_count]
    returns 0 and [fax_get_token_info] stores the sentinel through its
    non-null out-parameters. *)
Theorem null_handle_tolerated (h : heap) (source : ptr string) (out_size : ptr Z)
    (data : ptr (list Byte.byte)) (size : Z) (out_json : ptr (ptr string))
    (index : Z) (type : ptr Z) (text : ptr (ptr string)) (line col : ptr Z)
    (v0 v2 v3 : Z) (v1 : ptr string) :
  fax_proto_get_error nullptr h = Some (nullptr, h) /\
  fax_serialize_tokens nullptr source out_size h = Some ((nullptr, out_size), h) /\
  fax_serialize_module nullptr source out_size h = Some ((nullptr, out_size), h) /\
  fax_deserialize_tokens nullptr data size h = Some ((-1)%Z, h) /\
  fax_deserialize_module nullptr data size out_json h = Some ((-1)%Z, h) /\
  fax_get_token_count nullptr h = Some (0%Z, h) /\
  fax_get_token_info nullptr index type text line col h =
    Some ({| out_type := write_out type 0%Z;
             out_text := write_out text (Some "");
             out_line := write_out line 0%Z;
             out_col := write_out col 0%Z |}, h) /\
  fax_get_token_info nullptr index (Some v0) (Some v1) (Some v2) (Some v3) h =
    Some ({| out_type := Some 0%Z;
             out_text := Some (Some "");
             out_line := Some 0%Z;
             out_col := Some 0%Z |}, h).
Proof. repeat split. Qed.

(** ** How calls change the store *)

#[local] Instance evolves_refl : Reflexive evolves.
Proof. intros d. repeat split. left. reflexivity. Qed.

#[local] Instance evolves_trans : Transitive evolves.
Proof.
  intros d d1 d2 (Ht1 & Hm1 & He1) (Ht2 & Hm2 & He2).
  split; [congruence|]. split; [congruence|].
  destruct He2 as [He2 | He2]; [|right; exact He2].
  rewrite He2. exact He1.
Qed.

Lemma evolves_set_temp_string (t : string) (d : ProtoContextData) :
  evolves d (set_temp_string t d).
Proof. repeat split. left. reflexivity. Qed.

Lemma evolves_set_buffer (b : list Byte.byte) (d : ProtoContextData) :
  evolves d (set_buffer b d).
Proof. repeat split. left. reflexivity. Qed.

Lemma evolves_set_error (e : string) (d : ProtoContextData) :
  e ∈ messages -> evolves d (set_error e d).
Proof. intros He. repeat split. right. exact He. Qed.

Lemma keeps_ret {A : Type} (a : A) : keeps (ret a).
Proof. intros h a' h1 [= _ <-] l. reflexivity. Qed.

Lemma keeps_bind {A B : Type} (m : ffi A) (k : A -> ffi B) :
  keeps m -> (forall a, keeps (k a)) -> keeps (bind m k).
Proof.
  intros Hm Hk h b h2 Hrun l.
  apply bind_inv in Hrun as (a & h1 & Hrun1 & Hrun2).
  transitivity (h1 !! l); [apply (Hm _ _ _ Hrun1) | apply (Hk _ _ _ _ Hrun2)].
Qed.

Lemma keeps_read {A : Type} (ctx : ProtoContext) (g : ProtoContextData -> A) :
  keeps (read ctx g).
Proof.
  intros h a h1 Hrun l. unfold read in Hrun.
  destruct ctx as [l0|]; [|discriminate].
  destruct (h !! l0); [|discriminate].
  injection Hrun as _ <-. reflexivity.
Qed.

Lemma keeps_modify (ctx : ProtoContext) (f : ProtoContextData -> ProtoContextData) :
  (forall d, evolves d (f d)) -> keeps (modify ctx f).
Proof.
  intros Hf h a h1 Hrun l. unfold modify in Hrun.
  destruct ctx as [l0|]; [|discriminate].
  destruct (h !! l0) as [d|] eqn:Hl0; [|discriminate].
  injection Hrun as _ <-.
  destruct (decide (l0 = l)) as [-> | Hne].
  - rewrite lookup_insert_eq, Hl0. constructor. apply Hf.
  - rewrite lookup_insert_ne by exact Hne. reflexivity.
Qed.

Lemma keeps_if {A : Type} (b : bool) (m1 m2 : ffi A) :
  keeps m1 -> keeps m2 -> keeps (if b then m1 else m2).
Proof. destruct b; trivial. Qed.

Lemma keeps_undefined {A : Type} : keeps (@undefined A).
Proof. intros h a h1 [=]. Qed.

Create HintDb bridge.

#[local] Hint Resolve keeps_ret keeps_read keeps_modify keeps_if keeps_undefined
  evolves_set_temp_string evolves_set_buffer evolves_set_error : bridge.

#[local] Hint Extern 1 (_ ∈ messages) =>
  (unfold messages; set_solver) : bridge.

#[local] Hint Extern 2 (keeps (bind _ _)) =>
  (apply keeps_bind; [|intros ?]) : bridge.

Ltac solve_keeps f := unfold f; auto 8 with bridge.

Lemma keeps_get_error ctx : keeps (fax_proto_get_error ctx).
Proof. solve_keeps fax_proto_get_error. Qed.

Lemma keeps_serialize_tokens ctx source out_size :
  keeps (fax_serialize_tokens ctx source out_size).
Proof. solve_keeps fax_serialize_tokens. Qed.

Lemma keeps_bytes_free bytes : keeps (fax_bytes_free bytes).
Proof. solve_keeps fax_bytes_free. Qed.

Lemma keeps_deserialize_tokens ctx data size :
  keeps (fax_deserialize_tokens ctx data size).
Proof. solve_keeps fax_deserialize_tokens. Qed.

Lemma keeps_get_token_count ctx : keeps (fax_get_token_count ctx).
Proof. solve_keeps fax_get_token_count. Qed.

Lemma keeps_get_token_info ctx index type text line col :
  keeps (fax_get_token_info ctx index type text line col).
Proof. solve_keeps fax_get_token_info. Qed.

Lemma keeps_serialize_module ctx ast_json out_size :
  keeps (fax_serialize_module ctx ast_json out_size).
Proof. solve_keeps fax_serialize_module. Qed.

Lemma keeps_deserialize_module ctx data size out_json :
  keeps (fax_deserialize_module ctx data size out_json).
Proof. solve_keeps fax_deserialize_module. Qed.

Lemma keeps_string_free str : keeps (fax_string_free str).
Proof. solve_keeps fax_string_free. Qed.

Lemma transition_of_keeps {A : Type} (m : ffi A) (c : call) (h h1 : heap) :
  keeps m -> (m;; ret tt) h = Some (tt, h1) ->
  forall l, transition c l (h !! l) (h1 !! l).
Proof.
  intros Hm Hrun l.
  apply bind_inv in Hrun as (a & h2 & Hrun & [= <-]).
  destruct (Hm _ _ _ Hrun l); constructor; assumption.
Qed.

Lemma transition_same (c : call) (l : loc) (o : option ProtoContextData) :
  transition c l o o.
Proof. destruct o; constructor. reflexivity. Qed.

Lemma exec_transition (c : call) (h h1 : heap) :
  exec c h = Some (tt, h1) ->
  forall l, transition c l (h !! l) (h1 !! l).
Proof.
  destruct c; simpl; intros Hrun l;
    try solve [eapply transition_of_keeps; [|exact Hrun];
               eauto using keeps_get_error, keeps_serialize_tokens,
                 keeps_deserialize_tokens, keeps_get_token_count,
                 keeps_get_token_info, keeps_serialize_module,
                 keeps_deserialize_module];
    try solve [injection Hrun as <-; apply transition_same];
    try solve [destruct str; [discriminate|];
               injection Hrun as <-; apply transition_same].
  - (* context_new *)
    unfold bind, fax_proto_context_new, ret in Hrun. injection Hrun as <-.
    destruct (decide (fresh (dom h) = l)) as [<- | Hne].
    + rewrite lookup_insert_eq.
      rewrite (proj1 (not_elem_of_dom h (fresh (dom h))) (is_fresh (dom h))).
      constructor. reflexivity.
    + rewrite lookup_insert_ne by exact Hne. apply transition_same.
  - (* context_free *)
    unfold fax_proto_context_free in Hrun. destruct ctx as [l0|].
    + destruct (h !! l0) as [d|] eqn:Hl0; [|discriminate].
      injection Hrun as <-.
      destruct (decide (l0 = l)) as [<- | Hne].
      * rewrite lookup_delete_eq, Hl0. constructor. simpl.
        apply bool_decide_eq_true. reflexivity.
      * rewrite lookup_delete_ne by exact Hne. apply transition_same.
    + injection Hrun as <-. apply transition_same.
Qed.

(** ** The recorded error *)

Lemma evolves_error_set (d d1 : ProtoContextData) :
  evolves d d1 -> error d <> "" -> error d1 <> "".
Proof.
  intros (_ & _ & [He | He]) Hd; [congruence|].
  unfold messages in He. intros Hempty. rewrite Hempty in He.
  repeat (apply elem_of_cons in He as [He | He]; [discriminate|]).
  apply elem_of_nil in He. exact He.
Qed.

Lemma exec_all_evolves (cs : list call) (h h1 : heap) (l : loc)
    (d : ProtoContextData) :
  h !! l = Some d ->
  Forall (fun c => frees l c = false) cs ->
  exec_all cs h = Some (tt, h1) ->
  exists d1, h1 !! l = Some d1 /\ evolves d d1.
Proof.
  revert h d. induction cs as [|c cs IH]; intros h d Hl Hfree Hrun.
  - injection Hrun as <-. exists d. split; [exact Hl | reflexivity].
  - simpl in Hrun. apply bind_inv in Hrun as ([] & h2 & Hc & Hcs).
    apply Forall_cons in Hfree as [Hc_free Hcs_free].
    pose proof (exec_transition c h h2 Hc l) as Htr.
    rewrite Hl in Htr. inversion Htr as [d0 d2 Hev Hd0 Hd2 | d0 Hfr | |]; subst.
    + destruct (IH h2 d2 (eq_sym Hd2) Hcs_free Hcs) as (d1 & Hl1 & Hev1).
      exists d1. split; [exact Hl1|]. transitivity d2; assumption.
    + congruence.
Qed.

(** C10. Once the error string of a context is set, it stays set through
    every sequence of bridge calls that does not destroy that context,
    whichever handles and arguments the calls are given and whether they fail
    or not: the context is still live, its error string is the old one or one
    of the four messages a failing call records, it is never empty, and
    [fax_proto_get_error] returns it. *)
Theorem error_never_cleared (cs : list call) (h h1 : heap) (l : loc)
    (d : ProtoContextData) :
  h !! l = Some d ->
  error d <> "" ->
  Forall (fun c => frees l c = false) cs ->
  exec_all cs h = Some (tt, h1) ->
  exists (d1 : ProtoContextData) (h2 : heap),
    h1 !! l = Some d1 /\
    error d1 <> "" /\
    (error d1 = error d \/ error d1 ∈ messages) /\
    fax_proto_get_error (Some l) h1 = Some (Some (error d1), h2).
Proof.
  intros Hl Hset Hfree Hrun.
  destruct (exec_all_evolves cs h h1 l d Hl Hfree Hrun) as (d1 & Hl1 & Hev).
  pose proof (evolves_error_set d d1 Hev Hset) as Hset1.
  exists d1, (<[l := set_temp_string (error d1) d1]> h1).
  split; [exact Hl1|]. split; [exact Hset1|].
  split; [apply Hev|]. apply (get_error_recorded _ _ _ Hl1 Hset1).
Qed.

Lemma error_never_cleared_witness :
  let bytes := [Byte.x0a; Byte.x02] in
  let d := set_error msg_deserialize_tokens ProtoContextData_new in
  let h : heap := {[0%nat := d]} in
  let cs :=
    [get_error (Some 0%nat); get_token_count (Some 0%nat);
     get_token_info (Some 0%nat) 0 (Some 1%Z) nullptr nullptr nullptr;
     context_new; serialize_tokens (Some 1%nat) (Some "x") (Some 3%Z);
     get_error (Some 0%nat);
     serialize_module (Some 0%nat) (Some "{}") (Some 3%Z);
     bytes_free nullptr; context_free (Some 1%nat)] in
  (ctx <- fax_proto_context_new;;
   fax_deserialize_tokens ctx (Some bytes) 2) ∅ = Some ((-1)%Z, h) /\
  exists h1 : heap,
    exec_all cs h = Some (tt, h1) /\
    exists (d1 : ProtoContextData) (h2 : heap),
      h1 !! 0%nat = Some d1 /\
      error d1 <> "" /\
      (error d1 = error d \/ error d1 ∈ messages) /\
      fax_proto_get_error (Some 0%nat) h1 = Some (Some (error d1), h2).
Proof.
  intros bytes d h cs. split; [reflexivity|].
  eexists. split; [vm_compute; reflexivity|].
  apply (error_never_cleared cs h _ 0%nat d).
  - reflexivity.
  - discriminate.
  - repeat constructor.
  - vm_compute. reflexivity.
Defined.

(** ** The token count *)

Lemma token_count_run (h : heap) (ctx : ProtoContext) :
  live h ctx -> fax_get_token_count ctx h = Some (0%Z, h).
Proof.
  intros Hlive. destruct ctx as [l|]; [|destruct Hlive].
  destruct Hlive as [d Hl]. unfold fax_get_token_count. simpl.
  rewrite (bind_Some _ _ _ _ _ (read_Some token_stream h l d Hl)).
  destruct (is_null (token_stream d)); reflexivity.
Qed.

Lemma no_stream_transition (c : call) (h h1 : heap) :
  (forall l, transition c l (h !! l) (h1 !! l)) ->
  no_stream h -> no_stream h1.
Proof.
  intros Htr Hno l d1 Hl1. specialize (Htr l). rewrite Hl1 in Htr.
  inversion Htr as [d0 d2 (Hts & _ & _) Hd0 Hd2 | | Hc Hd0 Hd2 |]; subst.
  - rewrite Hts. apply (Hno l d0). symmetry. exact Hd0.
  - reflexivity.
Qed.

Lemma exec_all_no_stream (cs : list call) (h h1 : heap) :
  no_stream h -> exec_all cs h = Some (tt, h1) -> no_stream h1.
Proof.
  revert h. induction cs as [|c cs IH]; intros h Hno Hrun.
  - injection Hrun as <-. exact Hno.
  - simpl in Hrun. apply bind_inv in Hrun as ([] & h2 & Hc & Hcs).
    apply (IH h2); [|exact Hcs].
    apply (no_stream_transition c h h2); [|exact Hno].
    apply exec_transition. exact Hc.
Qed.

(** Starting from a store in which no context holds a decoded token stream
    (the empty store, for one), after any sequence of bridge calls, with any
    handles and arguments, no context holds one either; on every live context
    [fax_get_token_count] returns 0 and changes nothing, and
    [fax_deserialize_tokens] returns -1 on every buffer and length and stores
    no token stream: no decode succeeds. *)
Theorem token_count_zero (cs : list call) (h h1 : heap) (ctx : ProtoContext) :
  no_stream h ->
  exec_all cs h = Some (tt, h1) ->
  live h1 ctx ->
  no_stream h1 /\
  fax_get_token_count ctx h1 = Some (0%Z, h1) /\
  (forall data size, exists h2,
      fax_deserialize_tokens ctx data size h1 = Some ((-1)%Z, h2) /\
      no_stream h2).
Proof.
  intros Hno Hrun Hlive.
  pose proof (exec_all_no_stream cs h h1 Hno Hrun) as Hno1.
  split; [exact Hno1|]. split; [apply token_count_run; exact Hlive|].
  intros data size.
  destruct (deserialize_tokens_live h1 ctx data size Hlive) as [h2 Hdec].
  exists h2. split; [exact Hdec|].
  apply (exec_all_no_stream [deserialize_tokens ctx data size] h1 h2 Hno1).
  simpl. rewrite (bind_Some _ _ _ _ _ (bind_Some _ _ _ _ _ Hdec)).
  reflexivity.
Qed.

Lemma token_count_zero_witness :
  let bytes := [Byte.x0a; Byte.x02] in
  let cs :=
    [context_new; deserialize_tokens (Some 0%nat) (Some bytes) 2;
     context_new; context_free (Some 0%nat);
     serialize_tokens (Some 1%nat) (Some "fn main") (Some 0%Z)] in
  no_stream ∅ /\
  exists h1 : heap,
    exec_all cs ∅ = Some (tt, h1) /\
    live h1 (Some 1%nat) /\
    no_stream h1 /\
    fax_get_token_count (Some 1%nat) h1 = Some (0%Z, h1) /\
    (forall data size, exists h2,
        fax_deserialize_tokens (Some 1%nat) data size h1 = Some ((-1)%Z, h2) /\
        no_stream h2).
Proof.
  intros bytes cs.
  assert (Hempty : no_stream ∅).
  { intros l d Hl. rewrite lookup_empty in Hl. discriminate. }
  split; [exact Hempty|].
  eexists. split; [vm_compute; reflexivity|].
  assert (Hlive : live
    {[1%nat := set_buffer [] (set_error msg_serialize_tokens ProtoContextData_new)]}
    (Some 1%nat)).
  { eexists. reflexivity. }
  split; [exact Hlive|].
  apply (token_count_zero cs ∅ _ (Some 1%nat) Hempty); [vm_compute; reflexivity|].
  exact Hlive.
Defined.

(** * Further properties of the bridge *)

(** ** Destroying a context *)

(** A context that was just created can be destroyed, and that gives back the
    store from before the creation. *)
Theorem context_new_free_roundtrip (h : heap) :
  (ctx <- fax_proto_context_new;; fax_proto_context_free ctx) h = Some (tt, h).
Proof.
  unfold bind, fax_proto_context_new, fax_proto_context_free.
  rewrite lookup_insert_eq. rewrite delete_insert_eq.
  rewrite delete_id; [reflexivity|].
  apply not_elem_of_dom. apply is_fresh.
Qed.

(** Destroying a live context removes that context and no other; once it is
    destroyed, the calls that go through the handle (the error accessor, the
    token count, a second destroy, and the encoders and decoders when their
    other arguments pass the null checks) are undefined, while
    [fax_get_token_info], which never goes through it, still returns. *)
Theorem context_free_then_use (h : heap) (l : loc) (d : ProtoContextData)
    (source : string) (bytes : list Byte.byte) (n size index : Z)
    (out_json : ptr string) :
  h !! l = Some d ->
  size <> 0%Z ->
  exists h1 : heap,
    fax_proto_context_free (Some l) h = Some (tt, h1) /\
    h1 !! l = None /\
    (forall l', l' <> l -> h1 !! l' = h !! l') /\
    fax_proto_get_error (Some l) h1 = None /\
    fax_get_token_count (Some l) h1 = None /\
    fax_proto_context_free (Some l) h1 = None /\
    fax_serialize_tokens (Some l) (Some source) (Some n) h1 = None /\
    fax_deserialize_tokens (Some l) (Some bytes) size h1 = None /\
    fax_serialize_module (Some l) (Some source) (Some n) h1 = None /\
    fax_deserialize_module (Some l) (Some bytes) size (Some out_json) h1 = None /\
    exists r, fax_get_token_info (Some l) index nullptr nullptr nullptr nullptr h1
              = Some (r, h1).
Proof.
  intros Hl Hsize. exists (delete l h).
  assert (Hgone : delete l h !! l = None) by apply lookup_delete_eq.
  apply Z.eqb_neq in Hsize.
  split; [unfold fax_proto_context_free; rewrite Hl; reflexivity|].
  split; [exact Hgone|].
  split; [intros l' Hne; apply lookup_delete_ne; congruence|].
  repeat split.
  - unfold fax_proto_get_error, bind, read. simpl. rewrite Hgone. reflexivity.
  - unfold fax_get_token_count, bind, read. simpl. rewrite Hgone. reflexivity.
  - unfold fax_proto_context_free. rewrite Hgone. reflexivity.
  - unfold fax_serialize_tokens, bind, modify. simpl. rewrite Hgone. reflexivity.
  - unfold fax_deserialize_tokens, bind, modify. simpl. rewrite Hsize. simpl.
    rewrite Hgone. reflexivity.
  - unfold fax_serialize_module, bind, modify. simpl. rewrite Hgone. reflexivity.
  - unfold fax_deserialize_module, bind, modify. simpl. rewrite Hsize. simpl.
    rewrite Hgone. reflexivity.
  - eexists. reflexivity.
Qed.

Lemma context_free_then_use_witness :
  let h : heap := {[0%nat := ProtoContextData_new; 1%nat := holding []]} in
  exists h1 : heap,
    fax_proto_context_free (Some 0%nat) h = Some (tt, h1) /\
    h1 !! 0%nat = None /\
    h1 !! 1%nat = Some (holding []) /\
    fax_proto_get_error (Some 0%nat) h1 = None /\
    fax_deserialize_tokens (Some 0%nat) (Some [Byte.x01]) 1 h1 = None.
Proof.
  intros h.
  destruct (context_free_then_use h 0%nat ProtoContextData_new "x" [Byte.x01]
              0 1 0 nullptr)
    as (h1 & Hfree & Hgone & Hframe & Herr & _ & _ & _ & Hdec & _);
    [reflexivity | lia |].
  exists h1. split; [exact Hfree|]. split; [exact Hgone|].
  split; [rewrite Hframe by lia; reflexivity|].
  split; [exact Herr | exact Hdec].
Defined.

(** ** Calls on one context leave the others alone *)

Lemma touches_only_ret {A : Type} (ctx : ProtoContext) (a : A) :
  touches_only ctx (ret a).
Proof. intros h a' h1 [= _ <-] l _. reflexivity. Qed.

Lemma touches_only_bind {A B : Type} (ctx : ProtoContext) (m : ffi A)
    (k : A -> ffi B) :
  touches_only ctx m -> (forall a, touches_only ctx (k a)) ->
  touches_only ctx (bind m k).
Proof.
  intros Hm Hk h b h2 Hrun l Hne.
  apply bind_inv in Hrun as (a & h1 & Hrun1 & Hrun2).
  rewrite (Hk _ _ _ _ Hrun2 l Hne). apply (Hm _ _ _ Hrun1 l Hne).
Qed.

Lemma touches_only_read {A : Type} (ctx : ProtoContext)
    (g : ProtoContextData -> A) :
  touches_only ctx (read ctx g).
Proof.
  intros h a h1 Hrun l _. unfold read in Hrun.
  destruct ctx as [l0|]; [|discriminate].
  destruct (h !! l0); [|discriminate].
  injection Hrun as _ <-. reflexivity.
Qed.

Lemma touches_only_modify (ctx : ProtoContext)
    (f : ProtoContextData -> ProtoContextData) :
  touches_only ctx (modify ctx f).
Proof.
  intros h a h1 Hrun l Hne. unfold modify in Hrun.
  destruct ctx as [l0|]; [|discriminate].
  destruct (h !! l0); [|discriminate].
  injection Hrun as _ <-. apply lookup_insert_ne. congruence.
Qed.

Lemma touches_only_if {A : Type} (ctx : ProtoContext) (b : bool) (m1 m2 : ffi A) :
  touches_only ctx m1 -> touches_only ctx m2 ->
  touches_only ctx (if b then m1 else m2).
Proof. destruct b; trivial. Qed.

Ltac unfold_bridge :=
  cbv beta delta
    [fax_proto_get_error fax_serialize_tokens fax_deserialize_tokens
     fax_get_token_count fax_get_token_info fax_serialize_module
     fax_deserialize_module].

Create HintDb frame.

#[local] Hint Resolve touches_only_ret touches_only_read touches_only_modify
  touches_only_if : frame.

#[local] Hint Extern 2 (touches_only _ (bind _ _)) =>
  (apply touches_only_bind; [|intros ?]) : frame.

Lemma touches_only_context_free ctx :
  touches_only ctx (fax_proto_context_free ctx).
Proof.
  intros h a h1 Hrun l Hne. unfold fax_proto_context_free in Hrun.
  destruct ctx as [l0|].
  - destruct (h !! l0); [|discriminate].
    injection Hrun as _ <-. apply lookup_delete_ne. congruence.
  - injection Hrun as _ <-. reflexivity.
Qed.

Lemma touches_only_drop {A : Type} (ctx : ProtoContext) (m : ffi A)
    (h h1 : heap) :
  touches_only ctx m -> (m;; ret tt) h = Some (tt, h1) ->
  forall l, ctx <> Some l -> h1 !! l = h !! l.
Proof.
  intros Hm Hrun l Hne.
  apply bind_inv in Hrun as (a & h2 & Hrun & [= <-]).
  apply (Hm _ _ _ Hrun l Hne).
Qed.

(** Whatever the call and its arguments, a context that was live before the
    call and is not the one the call was given is exactly as it was. *)
Theorem call_leaves_other_contexts (c : call) (h h1 : heap) (l : loc)
    (d : ProtoContextData) :
  exec c h = Some (tt, h1) ->
  h !! l = Some d ->
  target c <> Some l ->
  h1 !! l = Some d.
Proof.
  intros Hrun Hl Hne. rewrite <- Hl.
  destruct c; simpl in Hrun, Hne;
    try solve [injection Hrun as <-; reflexivity];
    try solve [destruct str; [discriminate|];
               injection Hrun as <-; reflexivity];
    try solve [eapply touches_only_drop; [|exact Hrun|exact Hne];
               unfold_bridge; auto 8 with frame].
  - (* context_new *)
    unfold bind, fax_proto_context_new, ret in Hrun. injection Hrun as <-.
    apply lookup_insert_ne. intros Heq. rewrite <- Heq in Hl.
    pose proof (is_fresh (dom h)) as Hfresh.
    apply not_elem_of_dom in Hfresh. congruence.
  - (* context_free *)
    apply (touches_only_context_free ctx h tt h1 Hrun l Hne).
Qed.

Lemma call_leaves_other_contexts_witness :
  let d := set_error msg_serialize_module ProtoContextData_new in
  let h : heap := {[0%nat := ProtoContextData_new; 1%nat := d]} in
  exists h1 : heap,
    exec (serialize_tokens (Some 0%nat) (Some "x") (Some 0%Z)) h = Some (tt, h1) /\
    h !! 1%nat = Some d /\
    Some 0%nat <> Some 1%nat /\
    h1 !! 1%nat = Some d.
Proof.
  intros d h. eexists. split; [vm_compute; reflexivity|].
  split; [reflexivity|]. split; [discriminate|].
  apply (call_leaves_other_contexts
           (serialize_tokens (Some 0%nat) (Some "x") (Some 0%Z)) h _ 1%nat d).
  - vm_compute. reflexivity.
  - reflexivity.
  - discriminate.
Defined.

(** ** Calls on valid handles are defined *)

Lemma safe_on_ret {A : Type} (ctx : ProtoContext) (a : A) : safe_on ctx (ret a).
Proof. intros h Hlive. exists a, h. split; [reflexivity | exact Hlive]. Qed.

Lemma safe_on_bind {A B : Type} (ctx : ProtoContext) (m : ffi A)
    (k : A -> ffi B) :
  safe_on ctx m -> (forall a, safe_on ctx (k a)) -> safe_on ctx (bind m k).
Proof.
  intros Hm Hk h Hlive.
  destruct (Hm h Hlive) as (a & h1 & Hrun1 & Hlive1).
  destruct (Hk a h1 Hlive1) as (b & h2 & Hrun2 & Hlive2).
  exists b, h2. split; [|exact Hlive2].
  rewrite (bind_Some _ _ _ _ _ Hrun1). exact Hrun2.
Qed.

Lemma safe_on_read {A : Type} (ctx : ProtoContext) (g : ProtoContextData -> A) :
  safe_on ctx (read ctx g).
Proof.
  intros h Hlive. destruct ctx as [l|]; [|destruct Hlive].
  destruct Hlive as [d Hl]. exists (g d), h.
  split; [apply read_Some; exact Hl | exists d; exact Hl].
Qed.

Lemma safe_on_modify (ctx : ProtoContext)
    (f : ProtoContextData -> ProtoContextData) :
  safe_on ctx (modify ctx f).
Proof.
  intros h Hlive. destruct ctx as [l|]; [|destruct Hlive].
  destruct Hlive as [d Hl]. exists tt, (<[l := f d]> h).
  split; [apply modify_Some; exact Hl|].
  exists (f d). apply lookup_insert_eq.
Qed.

Lemma safe_on_if {A : Type} (ctx : ProtoContext) (b : bool) (m1 m2 : ffi A) :
  safe_on ctx m1 -> safe_on ctx m2 -> safe_on ctx (if b then m1 else m2).
Proof. destruct b; trivial. Qed.

Create HintDb safety.

#[local] Hint Resolve safe_on_ret safe_on_read safe_on_modify safe_on_if : safety.

#[local] Hint Extern 2 (safe_on _ (bind _ _)) =>
  (apply safe_on_bind; [|intros ?]) : safety.




(** ** What the bridge ever returns and stores *)

(** No encoder ever returns a buffer and no decoder ever returns success:
    whenever a call returns, the encoders return null, with [*out_size]
    either left as it was or set to 0, and the decoders return -1. *)
Theorem bridge_never_produces_output (h h1 : heap) (ctx : ProtoContext) :
  (forall source out_size p o,
      fax_serialize_tokens ctx source out_size h = Some ((p, o), h1) ->
      p = nullptr /\ (o = out_size \/ o = Some 0%Z)) /\
  (forall ast_json out_size p o,
      fax_serialize_module ctx ast_json out_size h = Some ((p, o), h1) ->
      p = nullptr /\ (o = out_size \/ o = Some 0%Z)) /\
  (forall data size r,
      fax_deserialize_tokens ctx data size h = Some (r, h1) -> r = (-1)%Z) /\
  (forall data size out_json r,
      fax_deserialize_module ctx data size out_json h = Some (r, h1) ->
      r = (-1)%Z).
Proof.
  split; [|split; [|split]].
  - intros source out_size p o H. unfold fax_serialize_tokens in H.
    destruct (is_null ctx || is_null source || is_null out_size).
    + injection H as <- <- _. split; [reflexivity | left; reflexivity].
    + apply bind_inv in H as (? & ? & _ & H).
      apply bind_inv in H as (? & ? & _ & H).
      injection H as <- <- _. split; [reflexivity | right; reflexivity].
  - intros ast_json out_size p o H. unfold fax_serialize_module in H.
    destruct (is_null ctx || is_null ast_json || is_null out_size).
    + injection H as <- <- _. split; [reflexivity | left; reflexivity].
    + apply bind_inv in H as (? & ? & _ & H).
      injection H as <- <- _. split; [reflexivity | right; reflexivity].
  - intros data size r H. unfold fax_deserialize_tokens in H.
    destruct (is_null ctx || is_null data || (size =? 0)%Z);
      [injection H as <- _; reflexivity|].
    apply bind_inv in H as (? & ? & _ & H).
    injection H as <- _. reflexivity.
  - intros data size out_json r H. unfold fax_deserialize_module in H.
    destruct (is_null ctx || is_null data || (size =? 0)%Z || is_null out_json);
      [injection H as <- _; reflexivity|].
    apply bind_inv in H as (? & ? & _ & H).
    injection H as <- _. reflexivity.
Qed.

Lemma bridge_never_produces_output_witness :
  let h : heap := {[0%nat := ProtoContextData_new]} in
  let h1 : heap :=
    {[0%nat := set_buffer [] (set_error msg_serialize_tokens ProtoContextData_new)]} in
  let h2 : heap := {[0%nat := set_error msg_deserialize_module ProtoContextData_new]} in
  fax_serialize_tokens (Some 0%nat) (Some "x") (Some 5%Z) h
    = Some ((nullptr, Some 0%Z), h1) /\
  (@nullptr (list Byte.byte) = nullptr /\ (Some 0%Z = Some 5%Z \/ Some 0%Z = Some 0%Z)) /\
  fax_deserialize_module (Some 0%nat) (Some [Byte.x01]) 1 (Some nullptr) h
    = Some ((-1)%Z, h2) /\
  (-1)%Z = (-1)%Z.
Proof.
  intros h h1 h2.
  assert (Hst : fax_serialize_tokens (Some 0%nat) (Some "x") (Some 5%Z) h
                = Some ((nullptr, Some 0%Z), h1)) by reflexivity.
  assert (Hdm : fax_deserialize_module (Some 0%nat) (Some [Byte.x01]) 1
                  (Some nullptr) h = Some ((-1)%Z, h2)) by reflexivity.
  split; [exact Hst|].
  split; [apply (proj1 (bridge_never_produces_output h h1 (Some 0%nat))
                   (Some "x") (Some 5%Z) nullptr (Some 0%Z) Hst)|].
  split; [exact Hdm|].
  apply (proj2 (proj2 (proj2 (bridge_never_produces_output h h2 (Some 0%nat))))
           (Some [Byte.x01]) 1%Z (Some nullptr) (-1)%Z Hdm).
Defined.

Lemma maintains_ret {A : Type} (P : ProtoContextData -> Prop) (a : A) :
  maintains P (ret a).
Proof. intros h a' h1 [= _ <-] HP. exact HP. Qed.

Lemma maintains_bind {A B : Type} (P : ProtoContextData -> Prop) (m : ffi A)
    (k : A -> ffi B) :
  maintains P m -> (forall a, maintains P (k a)) -> maintains P (bind m k).
Proof.
  intros Hm Hk h b h2 Hrun HP.
  apply bind_inv in Hrun as (a & h1 & Hrun1 & Hrun2).
  apply (Hk _ _ _ _ Hrun2). apply (Hm _ _ _ Hrun1). exact HP.
Qed.

Lemma maintains_read {A : Type} (P : ProtoContextData -> Prop)
    (ctx : ProtoContext) (g : ProtoContextData -> A) :
  maintains P (read ctx g).
Proof.
  intros h a h1 Hrun HP. unfold read in Hrun.
  destruct ctx as [l0|]; [|discriminate].
  destruct (h !! l0); [|discriminate].
  injection Hrun as _ <-. exact HP.
Qed.

Lemma maintains_modify (P : ProtoContextData -> Prop) (ctx : ProtoContext)
    (f : ProtoContextData -> ProtoContextData) :
  (forall d, P d -> P (f d)) -> maintains P (modify ctx f).
Proof.
  intros Hf h a h1 Hrun HP l d1 Hl1. unfold modify in Hrun.
  destruct ctx as [l0|]; [|discriminate].
  destruct (h !! l0) as [d|] eqn:Hl0; [|discriminate].
  injection Hrun as _ <-.
  destruct (decide (l0 = l)) as [-> | Hne].
  - rewrite lookup_insert_eq in Hl1. injection Hl1 as <-.
    apply Hf. apply (HP l d Hl0).
  - rewrite lookup_insert_ne in Hl1 by exact Hne. apply (HP l d1 Hl1).
Qed.

Lemma maintains_if {A : Type} (P : ProtoContextData -> Prop) (b : bool)
    (m1 m2 : ffi A) :
  maintains P m1 -> maintains P m2 -> maintains P (if b then m1 else m2).
Proof. destruct b; trivial. Qed.

Lemma message_is_blank_or_message (s : string) :
  s ∈ messages -> blank_or_message s.
Proof. intros Hs. right. exact Hs. Qed.

Lemma pristine_new : pristine ProtoContextData_new.
Proof. repeat split; left; reflexivity. Qed.

Lemma pristine_set_error (e : string) (d : ProtoContextData) :
  e ∈ messages -> pristine d -> pristine (set_error e d).
Proof.
  intros He (Hb & Ht & Hm & _ & Htmp).
  repeat split; try assumption. right. exact He.
Qed.

Lemma pristine_set_buffer (d : ProtoContextData) :
  pristine d -> pristine (set_buffer [] d).
Proof. intros (Hb & Ht & Hm & He & Htmp). repeat split; assumption. Qed.

Lemma pristine_set_temp_string (d : ProtoContextData) :
  pristine d -> pristine (set_temp_string (error d) d).
Proof. intros (Hb & Ht & Hm & He & Htmp). repeat split; assumption. Qed.

Create HintDb pristine.

#[local] Hint Resolve maintains_ret maintains_read maintains_modify maintains_if
  pristine_set_error pristine_set_buffer pristine_set_temp_string : pristine.

#[local] Hint Extern 1 (_ ∈ messages) =>
  (unfold messages; set_solver) : pristine.

#[local] Hint Extern 2 (maintains _ (bind _ _)) =>
  (apply maintains_bind; [|intros ?]) : pristine.

Lemma maintains_drop {A : Type} (P : ProtoContextData -> Prop) (m : ffi A)
    (h h1 : heap) :
  maintains P m -> (m;; ret tt) h = Some (tt, h1) ->
  everywhere P h -> everywhere P h1.
Proof.
  intros Hm Hrun HP.
  apply bind_inv in Hrun as (a & h2 & Hrun & [= <-]).
  apply (Hm _ _ _ Hrun HP).
Qed.

Lemma exec_pristine (c : call) (h h1 : heap) :
  exec c h = Some (tt, h1) -> everywhere pristine h -> everywhere pristine h1.
Proof.
  intros Hrun HP.
  destruct c; simpl in Hrun;
    try solve [injection Hrun as <-; exact HP];
    try solve [destruct str; [discriminate|]; injection Hrun as <-; exact HP];
    try solve [eapply maintains_drop; [|exact Hrun|exact HP];
               unfold_bridge; auto 8 with pristine].
  - (* context_new *)
    unfold bind, fax_proto_context_new, ret in Hrun. injection Hrun as <-.
    intros l d Hl.
    destruct (decide (fresh (dom h) = l)) as [<- | Hne].
    + rewrite lookup_insert_eq in Hl. injection Hl as <-. apply pristine_new.
    + rewrite lookup_insert_ne in Hl by exact Hne. apply (HP l d Hl).
  - (* context_free *)
    unfold fax_proto_context_free in Hrun. destruct ctx as [l0|].
    + destruct (h !! l0); [|discriminate]. injection Hrun as <-.
      intros l d Hl. apply lookup_delete_Some in Hl as [_ Hl]. apply (HP l d Hl).
    + injection Hrun as <-. exact HP.
Qed.

Lemma exec_all_pristine (cs : list call) (h h1 : heap) :
  exec_all cs h = Some (tt, h1) -> everywhere pristine h -> everywhere pristine h1.
Proof.
  revert h. induction cs as [|c cs IH]; intros h Hrun HP.
  - injection Hrun as <-. exact HP.
  - simpl in Hrun. apply bind_inv in Hrun as ([] & h2 & Hc & Hcs).
    apply (IH h2 Hcs). apply (exec_pristine c h h2 Hc HP).
Qed.

(** After any sequence of bridge calls on a store that started empty, every
    context has an empty encoded buffer, no decoded token stream and no
    decoded module, and its error string is empty or one of the four "not yet
    implemented" messages; so [fax_proto_get_error] on it returns absent or
    one of those four messages, nothing else. *)
Theorem reachable_contexts_pristine (cs : list call) (h1 : heap) (l : loc)
    (d : ProtoContextData) :
  exec_all cs ∅ = Some (tt, h1) ->
  h1 !! l = Some d ->
  pristine d /\
  exists (r : ptr string) (h2 : heap),
    fax_proto_get_error (Some l) h1 = Some (r, h2) /\
    (r = nullptr \/ exists msg, r = Some msg /\ msg ∈ messages).
Proof.
  intros Hrun Hl.
  assert (Hd : pristine d).
  { apply (exec_all_pristine cs ∅ h1 Hrun) with (l := l); [|exact Hl].
    intros l0 d0 Hl0. rewrite lookup_empty in Hl0. discriminate. }
  split; [exact Hd|].
  destruct Hd as (_ & _ & _ & [He | He] & _).
  - exists nullptr, h1. split; [apply (get_error_absent _ _ _ Hl He)|].
    left. reflexivity.
  - assert (Hne : error d <> "").
    { intros Hempty. rewrite Hempty in He. unfold messages in He.
      repeat (apply elem_of_cons in He as [He | He]; [discriminate|]).
      apply elem_of_nil in He. exact He. }
    eexists _, _. split; [apply (get_error_recorded _ _ _ Hl Hne)|].
    right. exists (error d). split; [reflexivity | exact He].
Qed.

Lemma reachable_contexts_pristine_witness :
  let cs :=
    [context_new; serialize_module (Some 0%nat) (Some "{}") (Some 1%Z);
     get_error (Some 0%nat); context_new;
     deserialize_tokens (Some 1%nat) (Some [Byte.x01]) 1] in
  exists (h1 : heap) (d : ProtoContextData),
    exec_all cs ∅ = Some (tt, h1) /\
    h1 !! 0%nat = Some d /\
    pristine d /\
    exists (r : ptr string) (h2 : heap),
      fax_proto_get_error (Some 0%nat) h1 = Some (r, h2) /\
      (r = nullptr \/ exists msg, r = Some msg /\ msg ∈ messages).
Proof.
  intros cs. eexists _, _.
  split; [vm_compute; reflexivity|]. split; [vm_compute; reflexivity|].
  apply (reachable_contexts_pristine cs _ 0%nat _).
  - vm_compute. reflexivity.
  - vm_compute. reflexivity.
Defined.

(** ** The error accessor, again *)

(** On a live context [fax_proto_get_error] writes nothing but the
    [temp_string] member of that context, and asking again gives the same
    answer and changes nothing more. *)
Theorem get_error_idempotent (h : heap) (l : loc) (d : ProtoContextData) :
  h !! l = Some d ->
  exists (r : ptr string) (h1 : heap) (d1 : ProtoContextData),
    fax_proto_get_error (Some l) h = Some (r, h1) /\
    r = (if string_empty (error d) then nullptr else Some (error d)) /\
    h1 !! l = Some d1 /\
    same_but_temp_string d d1 /\
    (forall l', l' <> l -> h1 !! l' = h !! l') /\
    fax_proto_get_error (Some l) h1 = Some (r, h1).
Proof.
  intros Hl. destruct (string_empty (error d)) eqn:He.
  - apply string_empty_true in He.
    exists nullptr, h, d.
    pose proof (get_error_absent h l d Hl He) as Hrun.
    repeat split; try assumption.
  - apply string_empty_false in He.
    set (d1 := set_temp_string (error d) d).
    assert (Hl1 : <[l := d1]> h !! l = Some d1) by apply lookup_insert_eq.
    exists (Some (error d)), (<[l := d1]> h), d1.
    split; [apply (get_error_recorded h l d Hl He)|].
    split; [reflexivity|]. split; [exact Hl1|].
    split; [repeat split|].
    split; [intros l' Hne; apply lookup_insert_ne; congruence|].
    rewrite (get_error_recorded _ l d1 Hl1 He).
    rewrite insert_insert_eq. reflexivity.
Qed.

Lemma get_error_idempotent_witness :
  let d := set_error msg_serialize_module ProtoContextData_new in
  let h : heap := {[0%nat := d]} in
  h !! 0%nat = Some d /\
  exists (r : ptr string) (h1 : heap) (d1 : ProtoContextData),
    fax_proto_get_error (Some 0%nat) h = Some (r, h1) /\
    r = Some msg_serialize_module /\
    h1 !! 0%nat = Some d1 /\
    same_but_temp_string d d1 /\
    (forall l', l' <> 0%nat -> h1 !! l' = h !! l') /\
    fax_proto_get_error (Some 0%nat) h1 = Some (r, h1).
Proof.
  intros d h. split; [reflexivity|].
  apply (get_error_idempotent h 0%nat d). reflexivity.
Defined.

(** ** The other three stubs record their message *)

(** With a live context, a non-null buffer and a non-zero length,
    [fax_deserialize_tokens] returns -1 and replaces whatever error was
    recorded: [fax_proto_get_error] then returns "Token deserialization not
    yet implemented". Nothing but the error string is written. *)
Theorem deserialize_tokens_records (h : heap) (l : loc) (d : ProtoContextData)
    (bytes : list Byte.byte) (size : Z) :
  h !! l = Some d ->
  size <> 0%Z ->
  exists h1 h2 : heap,
    fax_deserialize_tokens (Some l) (Some bytes) size h = Some ((-1)%Z, h1) /\
    h1 = <[l := set_error msg_deserialize_tokens d]> h /\
    fax_proto_get_error (Some l) h1
      = Some (Some "Token deserialization not yet implemented", h2).
Proof.
  intros Hl Hsize. apply Z.eqb_neq in Hsize.
  eexists _, _. split; [|split; [reflexivity|]].
  - unfold fax_deserialize_tokens. simpl. rewrite Hsize.
    rewrite (bind_Some _ _ _ _ _ (modify_Some _ h l d Hl)). reflexivity.
  - apply (get_error_recorded _ l (set_error msg_deserialize_tokens d)).
    + apply lookup_insert_eq.
    + discriminate.
Qed.

Lemma deserialize_tokens_records_witness :
  let d := set_error msg_serialize_tokens ProtoContextData_new in
  let h : heap := {[0%nat := d]} in
  h !! 0%nat = Some d /\
  2%Z <> 0%Z /\
  exists h1 h2 : heap,
    fax_deserialize_tokens (Some 0%nat) (Some [Byte.x0a; Byte.x00]) 2 h
      = Some ((-1)%Z, h1) /\
    h1 = <[0%nat := set_error msg_deserialize_tokens d]> h /\
    fax_proto_get_error (Some 0%nat) h1
      = Some (Some "Token deserialization not yet implemented", h2).
Proof.
  intros d h. split; [reflexivity|]. split; [lia|].
  apply (deserialize_tokens_records h 0%nat d); [reflexivity | lia].
Defined.

(** With a live context and non-null text and out-size pointer,
    [fax_serialize_module] returns null, stores 0 in [*out_size] and replaces
    whatever error was recorded: [fax_proto_get_error] then returns "Module
    serialization not yet implemented". Unlike [fax_serialize_tokens] it
    leaves the encoded buffer of the context as it is. *)
Theorem serialize_module_records (h : heap) (l : loc) (d : ProtoContextData)
    (ast_json : string) (n : Z) :
  h !! l = Some d ->
  exists (h1 h2 : heap) (d1 : ProtoContextData),
    fax_serialize_module (Some l) (Some ast_json) (Some n) h
      = Some ((nullptr, Some 0%Z), h1) /\
    h1 !! l = Some d1 /\
    buffer d1 = buffer d /\
    fax_proto_get_error (Some l) h1
      = Some (Some "Module serialization not yet implemented", h2).
Proof.
  intros Hl.
  exists (<[l := set_error msg_serialize_module d]> h).
  eexists. exists (set_error msg_serialize_module d).
  split; [|split; [apply lookup_insert_eq|split; [reflexivity|]]].
  - unfold fax_serialize_module. simpl.
    rewrite (bind_Some _ _ _ _ _ (modify_Some _ h l d Hl)). reflexivity.
  - apply (get_error_recorded _ l (set_error msg_serialize_module d)).
    + apply lookup_insert_eq.
    + discriminate.
Qed.

Lemma serialize_module_records_witness :
  let d :=
    {| error := msg_serialize_tokens; buffer := [Byte.x08; Byte.x01];
       temp_string := ""; token_stream := nullptr; module := nullptr |} in
  let h : heap := {[0%nat := d]} in
  h !! 0%nat = Some d /\
  exists (h1 h2 : heap) (d1 : ProtoContextData),
    fax_serialize_module (Some 0%nat) (Some "{}") (Some 9%Z) h
      = Some ((nullptr, Some 0%Z), h1) /\
    h1 !! 0%nat = Some d1 /\
    buffer d1 = [Byte.x08; Byte.x01] /\
    fax_proto_get_error (Some 0%nat) h1
      = Some (Some "Module serialization not yet implemented", h2).
Proof.
  intros d h. split; [reflexivity|].
  apply (serialize_module_records h 0%nat d). reflexivity.
Defined.

(** With a live context, a non-null buffer, a non-zero length and a non-null
    [out_json], [fax_deserialize_module] returns -1 and replaces whatever
    error was recorded: [fax_proto_get_error] then returns "Module
    deserialization not yet implemented". The decoded module of the context
    stays as it was. *)
Theorem deserialize_module_records (h : heap) (l : loc) (d : ProtoContextData)
    (bytes : list Byte.byte) (size : Z) (out : ptr string) :
  h !! l = Some d ->
  size <> 0%Z ->
  exists (h1 h2 : heap) (d1 : ProtoContextData),
    fax_deserialize_module (Some l) (Some bytes) size (Some out) h
      = Some ((-1)%Z, h1) /\
    h1 !! l = Some d1 /\
    module d1 = module d /\
    token_stream d1 = token_stream d /\
    fax_proto_get_error (Some l) h1
      = Some (Some "Module deserialization not yet implemented", h2).
Proof.
  intros Hl Hsize. apply Z.eqb_neq in Hsize.
  exists (<[l := set_error msg_deserialize_module d]> h).
  eexists. exists (set_error msg_deserialize_module d).
  split; [|split; [apply lookup_insert_eq|split; [reflexivity|split; [reflexivity|]]]].
  - unfold fax_deserialize_module. simpl. rewrite Hsize. simpl.
    rewrite (bind_Some _ _ _ _ _ (modify_Some _ h l d Hl)). reflexivity.
  - apply (get_error_recorded _ l (set_error msg_deserialize_module d)).
    + apply lookup_insert_eq.
    + discriminate.
Qed.

Lemma deserialize_module_records_witness :
  let h : heap := {[0%nat := ProtoContextData_new]} in
  h !! 0%nat = Some ProtoContextData_new /\
  3%Z <> 0%Z /\
  exists (h1 h2 : heap) (d1 : ProtoContextData),
    fax_deserialize_module (Some 0%nat) (Some [Byte.x0a; Byte.x01; Byte.x41]) 3
        (Some nullptr) h
      = Some ((-1)%Z, h1) /\
    h1 !! 0%nat = Some d1 /\
    module d1 = nullptr /\
    token_stream d1 = nullptr /\
    fax_proto_get_error (Some 0%nat) h1
      = Some (Some "Module deserialization not yet implemented", h2).
Proof.
  intros h. split; [reflexivity|]. split; [lia|].
  apply (deserialize_module_records h 0%nat ProtoContextData_new);
    [reflexivity | lia].
Defined.

(** * Properties of the allocation runtime *)

Import Runtime.

Section RuntimeFacts.

Context {libc : Type}.
Variable malloc : Z -> libc -> ptr address * libc.

Implicit Type w : world libc.

Lemma init_returns_1 w : fst (fax_gc_init w) = 1%Z.
Proof. unfold fax_gc_init. destruct (negb _); reflexivity. Qed.

Lemma init_initializes w : gc_initialized (snd (fax_gc_init w)) <> 0%Z.
Proof.
  unfold fax_gc_init. destruct (gc_initialized w =? 0)%Z eqn:Hz; simpl.
  - discriminate.
  - apply Z.eqb_neq. exact Hz.
Qed.

Lemma init_when_initialized w :
  gc_initialized w <> 0%Z -> fax_gc_init w = (1%Z, w).
Proof.
  intros Hw. unfold fax_gc_init.
  apply Z.eqb_neq in Hw. rewrite Hw. reflexivity.
Qed.

Lemma init_times_initialized (n : nat) w :
  gc_initialized w <> 0%Z -> init_times n w = (replicate n 1%Z, w).
Proof.
  intros Hw. induction n as [|n IH]; simpl; [reflexivity|].
  rewrite (init_when_initialized w Hw), IH. reflexivity.
Qed.

Lemma init_times_S (n : nat) w :
  init_times (S n) w = (replicate (S n) 1%Z, snd (fax_gc_init w)).
Proof.
  simpl. destruct (fax_gc_init w) as [r w1] eqn:Hinit.
  assert (Hr : r = 1%Z) by (rewrite <- (init_returns_1 w), Hinit; reflexivity).
  assert (Hw1 : gc_initialized w1 <> 0%Z).
  { pose proof (init_initializes w) as Hi. rewrite Hinit in Hi. exact Hi. }
  rewrite (init_times_initialized n w1 Hw1), Hr. reflexivity.
Qed.

Lemma alloc_after_shutdown (size : Z) w :
  fax_gc_alloc malloc size (fax_gc_shutdown w) =
    let (p, m) := malloc size (c_heap w) in
    let w2 := {| gc_initialized := 1; c_heap := m; stderr := stderr w |} in
    if is_null p then (nullptr, fprintf_stderr msg_out_of_memory w2)
    else (p, w2).
Proof. reflexivity. Qed.

(** C5, amended. [fax_gc_register_root] and [fax_gc_unregister_root] accept
    every address, return 1 and leave the runtime as it is: the runtime keeps
    no root set. Registering an address twice returns 1 twice, and after
    register, register, unregister of one address the runtime is in the state
    it started from. *)
Theorem root_calls_return_1_and_keep_state (a : ptr address) w :
  fax_gc_register_root a w = (1%Z, w) /\
  fax_gc_unregister_root a w = (1%Z, w) /\
  (let (r1, w1) := fax_gc_register_root a w in
   let (r2, w2) := fax_gc_register_root a w1 in
   let (r3, w3) := fax_gc_unregister_root a w2 in
   (r1, r2, r3, w3)) = (1%Z, 1%Z, 1%Z, w).
Proof. repeat split. Qed.

(** C6, amended. For every [n >= 1], [n] calls of [fax_gc_init] all return 1
    and leave the runtime in the state one call leaves it in, which is
    initialized. [fax_gc_alloc] after [fax_gc_shutdown] initializes the
    runtime again and returns what [malloc] returns for that size: the
    address when [malloc] gives one, and null, after the out-of-memory line on
    [stderr], when [malloc] gives null. *)
Theorem init_idempotent_and_alloc_reinitializes (n : nat) (size : Z) w :
  1 <= n ->
  init_times n w = (replicate n 1%Z, snd (fax_gc_init w)) /\
  gc_initialized (snd (fax_gc_init w)) <> 0%Z /\
  gc_initialized (snd (fax_gc_alloc malloc size (fax_gc_shutdown w))) = 1%Z /\
  fst (fax_gc_alloc malloc size (fax_gc_shutdown w)) = fst (malloc size (c_heap w)) /\
  c_heap (snd (fax_gc_alloc malloc size (fax_gc_shutdown w)))
    = snd (malloc size (c_heap w)) /\
  stderr (snd (fax_gc_alloc malloc size (fax_gc_shutdown w)))
    = if is_null (fst (malloc size (c_heap w)))
      then (stderr w ++ [msg_out_of_memory])%list
      else stderr w.
Proof.
  intros Hn. destruct n as [|n]; [lia|].
  split; [apply init_times_S|]. split; [apply init_initializes|].
  rewrite alloc_after_shutdown.
  destruct (malloc size (c_heap w)) as [[p|] m]; repeat split.
Qed.

End RuntimeFacts.

(** C5, as stated, fails: the state after registering the address 4096 is the
    state after register, register, unregister of that address, so nothing
    that can be read off the runtime says "registered" in the first and "not
    registered" in the second. *)
Lemma root_registration_leaves_no_trace :
  let w : world unit := snd (fax_gc_init (start tt)) in
  let a : ptr address := Some 4096%Z in
  let w1 := snd (fax_gc_register_root a w) in
  let w3 := snd (fax_gc_unregister_root a
                   (snd (fax_gc_register_root a (snd (fax_gc_register_root a w))))) in
  w1 = w3 /\
  ~ exists is_root : ptr address -> world unit -> bool,
      is_root a w1 = true /\ is_root a w3 = false.
Proof.
  intros w a w1 w3. split; [reflexivity|].
  intros (is_root & Hin & Hout).
  change w3 with w1 in Hout. congruence.
Qed.

(** C6, as stated, fails: with an allocator that has no memory left,
    [fax_gc_alloc] after [fax_gc_shutdown] initializes the runtime again but
    returns null. *)
Lemma alloc_after_shutdown_can_fail :
  let w : world unit := snd (fax_gc_init (start tt)) in
  fax_gc_alloc exhausted 16 (fax_gc_shutdown w) =
    (nullptr,
     {| gc_initialized := 1; c_heap := tt; stderr := [msg_out_of_memory] |}).
Proof. reflexivity. Qed.

Lemma init_idempotent_and_alloc_reinitializes_witness :
  let w : world Z := start 4096%Z in
  1 <= 3 /\
  init_times 3 w = ([1%Z; 1%Z; 1%Z], snd (fax_gc_init w)) /\
  gc_initialized (snd (fax_gc_init w)) <> 0%Z /\
  gc_initialized (snd (fax_gc_alloc bump 16 (fax_gc_shutdown w))) = 1%Z /\
  fst (fax_gc_alloc bump 16 (fax_gc_shutdown w)) = Some 4096%Z /\
  c_heap (snd (fax_gc_alloc bump 16 (fax_gc_shutdown w))) = 4112%Z /\
  stderr (snd (fax_gc_alloc bump 16 (fax_gc_shutdown w))) = [].
Proof.
  intros w. split; [lia|].
  apply (init_idempotent_and_alloc_reinitializes bump 3 16 w). lia.
Defined.

(** * Further properties of the allocation runtime *)

Section RuntimeSequences.

Context {libc : Type}.
Variable malloc : Z -> libc -> ptr address * libc.
Variable calloc : Z -> Z -> libc -> ptr address * libc.

Implicit Type w : world libc.

Lemma lazy_init_flag w :
  gc_initialized (if (gc_initialized w =? 0)%Z then snd (fax_gc_init w) else w)
  = if (gc_initialized w =? 0)%Z then 1%Z else gc_initialized w.
Proof.
  unfold fax_gc_init. destruct (gc_initialized w =? 0)%Z; reflexivity.
Qed.

Lemma allocations_run (size : Z) w :
  fax_gc_alloc malloc size w =
    (fst (malloc size (c_heap w)),
     {| gc_initialized :=
          if (gc_initialized w =? 0)%Z then 1%Z else gc_initialized w;
        c_heap := snd (malloc size (c_heap w));
        stderr := stderr w ++
          (if is_null (fst (malloc size (c_heap w)))
           then [msg_out_of_memory] else []) |}) /\
  fax_gc_alloc_zeroed calloc size w =
    (fst (calloc 1 size (c_heap w)),
     {| gc_initialized :=
          if (gc_initialized w =? 0)%Z then 1%Z else gc_initialized w;
        c_heap := snd (calloc 1 size (c_heap w));
        stderr := stderr w ++
          (if is_null (fst (calloc 1 size (c_heap w)))
           then [msg_out_of_memory] else []) |}).
Proof.
  split.
  - unfold fax_gc_alloc, fax_gc_init.
    destruct (gc_initialized w =? 0)%Z; simpl;
      destruct (malloc size (c_heap w)) as [[p|] m]; simpl;
      unfold set_c_heap, fprintf_stderr; simpl;
      rewrite ?app_nil_r; reflexivity.
  - unfold fax_gc_alloc_zeroed, fax_gc_init.
    destruct (gc_initialized w =? 0)%Z; simpl;
      destruct (calloc 1 size (c_heap w)) as [[p|] m]; simpl;
      unfold set_c_heap, fprintf_stderr; simpl;
      rewrite ?app_nil_r; reflexivity.
Qed.

(** Both allocation functions return exactly what the C allocator answers
    ([malloc size], [calloc 1 size]) and pass its new state on; they leave
    the runtime initialized, setting the flag to 1 when it was 0 and leaving
    it alone otherwise; and they print the out-of-memory line, once, exactly
    when they return null. *)
Theorem allocation_contract (size : Z) w :
  let flag := if (gc_initialized w =? 0)%Z then 1%Z else gc_initialized w in
  let line (p : ptr address) := if is_null p then [msg_out_of_memory] else [] in
  fax_gc_alloc malloc size w =
    (fst (malloc size (c_heap w)),
     {| gc_initialized := flag;
        c_heap := snd (malloc size (c_heap w));
        stderr := stderr w ++ line (fst (malloc size (c_heap w))) |}) /\
  fax_gc_alloc_zeroed calloc size w =
    (fst (calloc 1 size (c_heap w)),
     {| gc_initialized := flag;
        c_heap := snd (calloc 1 size (c_heap w));
        stderr := stderr w ++ line (fst (calloc 1 size (c_heap w))) |}) /\
  flag <> 0%Z.
Proof.
  intros flag line. subst flag line.
  destruct (allocations_run size w) as [Ha Hz].
  split; [exact Ha|]. split; [exact Hz|].
  destruct (gc_initialized w =? 0)%Z eqn:Hflag; [discriminate|].
  apply Z.eqb_neq. exact Hflag.
Qed.

Lemma run_ops_cons (o : op) (os : list op) w :
  run_ops malloc calloc (o :: os) w =
    (fst (run_op malloc calloc o w)
       :: fst (run_ops malloc calloc os (snd (run_op malloc calloc o w))),
     snd (run_ops malloc calloc os (snd (run_op malloc calloc o w)))).
Proof.
  simpl. destruct (run_op malloc calloc o w) as [r w1]. simpl.
  destruct (run_ops malloc calloc os w1) as [rs w2]. reflexivity.
Qed.

Lemma run_op_alloc (size : Z) w :
  run_op malloc calloc (gc_alloc size) w =
    (pointer (fst (malloc size (c_heap w))),
     {| gc_initialized :=
          if (gc_initialized w =? 0)%Z then 1%Z else gc_initialized w;
        c_heap := snd (malloc size (c_heap w));
        stderr := stderr w ++
          (if is_null (fst (malloc size (c_heap w)))
           then [msg_out_of_memory] else []) |}).
Proof.
  simpl. rewrite (proj1 (allocations_run size w)). reflexivity.
Qed.

Lemma run_op_alloc_zeroed (size : Z) w :
  run_op malloc calloc (gc_alloc_zeroed size) w =
    (pointer (fst (calloc 1 size (c_heap w))),
     {| gc_initialized :=
          if (gc_initialized w =? 0)%Z then 1%Z else gc_initialized w;
        c_heap := snd (calloc 1 size (c_heap w));
        stderr := stderr w ++
          (if is_null (fst (calloc 1 size (c_heap w)))
           then [msg_out_of_memory] else []) |}).
Proof.
  simpl. rewrite (proj2 (allocations_run size w)). reflexivity.
Qed.

Lemma run_op_init w :
  run_op malloc calloc gc_init w =
    (status 1,
     {| gc_initialized :=
          if (gc_initialized w =? 0)%Z then 1%Z else gc_initialized w;
        c_heap := c_heap w;
        stderr := stderr w |}).
Proof.
  simpl. unfold fax_gc_init. destruct w as [flag m err]. simpl.
  destruct (flag =? 0)%Z; reflexivity.
Qed.

Ltac run_op_cases o w :=
  destruct o as [|size|size|p|p| | |];
    [rewrite (run_op_init w) | rewrite (run_op_alloc size w)
    | rewrite (run_op_alloc_zeroed size w) | | | | |]; simpl.

Lemma run_op_stderr (o : op) w :
  stderr (snd (run_op malloc calloc o w)) =
    (stderr w ++ (if failed (fst (run_op malloc calloc o w))
                  then [msg_out_of_memory] else []))%list.
Proof.
  run_op_cases o w; rewrite ?app_nil_r; reflexivity.
Qed.

Lemma run_op_status (o : op) w (z : Z) :
  fst (run_op malloc calloc o w) = status z -> z = 1%Z.
Proof. run_op_cases o w; intros [=]; congruence. Qed.

(** In any sequence of runtime calls, every call that returns a status
    returns 1, and what the sequence prints on [stderr] is one out-of-memory
    line per allocation that returned null, nothing else. *)
Theorem diagnostics_count_failures (os : list op) w :
  stderr (snd (run_ops malloc calloc os w)) =
    (stderr w ++ replicate (failures (fst (run_ops malloc calloc os w)))
                           msg_out_of_memory)%list /\
  Forall (fun r => forall z, r = status z -> z = 1%Z)
         (fst (run_ops malloc calloc os w)).
Proof.
  revert w. induction os as [|o os IH]; intros w.
  - simpl. rewrite app_nil_r. split; [reflexivity | constructor].
  - rewrite run_ops_cons. simpl.
    destruct (IH (snd (run_op malloc calloc o w))) as [Herr Hstatus].
    split.
    + rewrite Herr, run_op_stderr, <- app_assoc. f_equal.
      destruct (failed (fst (run_op malloc calloc o w))); reflexivity.
    + constructor; [|exact Hstatus].
      intros z Hz. apply (run_op_status o w z Hz).
Qed.

Lemma run_op_flag (o : op) w :
  is_shutdown o = false ->
  gc_initialized w <> 0%Z ->
  gc_initialized (snd (run_op malloc calloc o w)) = gc_initialized w.
Proof.
  intros Ho Hw. apply Z.eqb_neq in Hw.
  run_op_cases o w; rewrite ?Hw; try reflexivity. discriminate.
Qed.

(** Once the runtime is initialized it stays so, with the flag untouched,
    through every sequence of calls that contains no [fax_gc_shutdown]. *)
Theorem initialized_until_shutdown (os : list op) w :
  gc_initialized w <> 0%Z ->
  Forall (fun o => is_shutdown o = false) os ->
  gc_initialized (snd (run_ops malloc calloc os w)) = gc_initialized w.
Proof.
  revert w. induction os as [|o os IH]; intros w Hw Hos; [reflexivity|].
  apply Forall_cons in Hos as [Ho Hos].
  rewrite run_ops_cons. simpl.
  pose proof (run_op_flag o w Ho Hw) as Hflag.
  rewrite IH; [exact Hflag | rewrite Hflag; exact Hw | exact Hos].
Qed.

Lemma run_op_same_memory (o : op) w w' :
  same_memory w w' ->
  if is_allocation o
  then fst (run_op malloc calloc o w) = fst (run_op malloc calloc o w') /\
       is_pointer (fst (run_op malloc calloc o w)) = true /\
       same_memory (snd (run_op malloc calloc o w))
                   (snd (run_op malloc calloc o w'))
  else is_pointer (fst (run_op malloc calloc o w)) = false /\
       same_memory (snd (run_op malloc calloc o w)) w'.
Proof.
  intros [Hheap Herr].
  destruct o as [|size|size|p|p| | |];
    rewrite ?run_op_init, ?run_op_alloc, ?run_op_alloc_zeroed;
    unfold same_memory; simpl; rewrite ?Hheap, ?Herr; repeat split; assumption.
Qed.

Lemma run_ops_same_memory (os : list op) w w' :
  same_memory w w' ->
  List.filter is_pointer (fst (run_ops malloc calloc os w))
    = fst (run_ops malloc calloc (List.filter is_allocation os) w') /\
  same_memory (snd (run_ops malloc calloc os w))
              (snd (run_ops malloc calloc (List.filter is_allocation os) w')).
Proof.
  revert w w'. induction os as [|o os IH]; intros w w' Hsame.
  - simpl. split; [reflexivity | exact Hsame].
  - rewrite run_ops_cons. simpl.
    pose proof (run_op_same_memory o w w' Hsame) as Hop.
    destruct (is_allocation o).
    + destruct Hop as (Hres & Hptr & Hnext).
      rewrite run_ops_cons. simpl. rewrite Hptr.
      destruct (IH _ _ Hnext) as [Hrs Hmem].
      split; [rewrite Hres, Hrs; reflexivity | exact Hmem].
    + destruct Hop as (Hptr & Hnext). rewrite Hptr. apply (IH _ _ Hnext).
Qed.

(** Only the allocation calls matter to memory: dropping every other call
    (init, root registration, collection, shutdown) from a sequence gives the
    same returned addresses, the same C heap and the same output. In
    particular no call of the runtime gives memory back. *)
Theorem memory_depends_on_allocations_only (os : list op) w :
  List.filter is_pointer (fst (run_ops malloc calloc os w))
    = fst (run_ops malloc calloc (List.filter is_allocation os) w) /\
  c_heap (snd (run_ops malloc calloc os w))
    = c_heap (snd (run_ops malloc calloc (List.filter is_allocation os) w)) /\
  stderr (snd (run_ops malloc calloc os w))
    = stderr (snd (run_ops malloc calloc (List.filter is_allocation os) w)).
Proof.
  destruct (run_ops_same_memory os w w) as (Hrs & Hheap & Herr);
    [split; reflexivity|].
  split; [exact Hrs|]. split; [exact Hheap | exact Herr].
Qed.

(** [fax_gc_shutdown] undoes [fax_gc_init] on a runtime that was not
    initialized, and is idempotent; [fax_gc_init] undoes [fax_gc_shutdown] on
    a runtime whose flag was 1, as [fax_gc_init] and the allocation functions
    set it. *)
Theorem init_shutdown_roundtrip w :
  (gc_initialized w = 0%Z -> fax_gc_shutdown (snd (fax_gc_init w)) = w) /\
  (gc_initialized w = 1%Z -> snd (fax_gc_init (fax_gc_shutdown w)) = w) /\
  fax_gc_shutdown (fax_gc_shutdown w) = fax_gc_shutdown w.
Proof.
  destruct w as [flag m err]. unfold fax_gc_init, fax_gc_shutdown. simpl.
  split; [|split].
  - intros ->. reflexivity.
  - intros ->. reflexivity.
  - reflexivity.
Qed.

End RuntimeSequences.

Lemma diagnostics_count_failures_witness :
  let w : world (Z * Z) := start (4096%Z, 24%Z) in
  let os :=
    [gc_alloc 16; gc_register_root (Some 4096%Z); gc_alloc 16; gc_collect;
     gc_alloc_zeroed 8; gc_shutdown; gc_alloc 1] in
  fst (run_ops bounded bounded_zeroed os w) =
    [pointer (Some 4096%Z); status 1; pointer nullptr; void;
     pointer (Some 4112%Z); void; pointer nullptr] /\
  stderr (snd (run_ops bounded bounded_zeroed os w)) =
    [msg_out_of_memory; msg_out_of_memory] /\
  Forall (fun r => forall z, r = status z -> z = 1%Z)
         (fst (run_ops bounded bounded_zeroed os w)).
Proof.
  intros w os. split; [reflexivity|].
  destruct (diagnostics_count_failures bounded bounded_zeroed os w) as [Herr Hst].
  split; [rewrite Herr; reflexivity | exact Hst].
Defined.

Lemma initialized_until_shutdown_witness :
  let w : world Z := snd (fax_gc_init (start 4096%Z)) in
  let os :=
    [gc_alloc 8; gc_collect; gc_init; gc_unregister_root nullptr;
     gc_alloc_zeroed 4; gc_collect_young; gc_register_root (Some 4096%Z)] in
  gc_initialized w <> 0%Z /\
  Forall (fun o => is_shutdown o = false) os /\
  gc_initialized (snd (run_ops bump bump_zeroed os w)) = 1%Z.
Proof.
  intros w os.
  assert (Hw : gc_initialized w <> 0%Z) by discriminate.
  assert (Hos : Forall (fun o => is_shutdown o = false) os)
    by (repeat constructor).
  split; [exact Hw|]. split; [exact Hos|].
  apply (initialized_until_shutdown bump bump_zeroed os w Hw Hos).
Defined.

Lemma init_shutdown_roundtrip_witness :
  let w0 : world unit := start tt in
  let w1 : world unit := snd (fax_gc_init w0) in
  gc_initialized w0 = 0%Z /\
  fax_gc_shutdown (snd (fax_gc_init w0)) = w0 /\
  gc_initialized w1 = 1%Z /\
  snd (fax_gc_init (fax_gc_shutdown w1)) = w1.
Proof.
  intros w0 w1.
  split; [reflexivity|].
  split; [apply (proj1 (init_shutdown_roundtrip w0)); reflexivity|].
  split; [reflexivity|].
  apply (proj1 (proj2 (init_shutdown_roundtrip w1))). reflexivity.
Defined.
